(** * FIFO cost allocation of the warehouse application

    A shallow embedding of the allocation code of [warehouse_app.py]:
    the six SQLite tables, the queries the code sends to them, the
    single-sale recompute [recalc_fifo_for_sale], the mass recompute
    handler and the pre-insert guard [safe_add_sale_item].

    Conventions of the embedding.
    - A table is the list of its rows in the order in which the engine
      enumerates them in a scan; SQL leaves that order to the engine.
    - [REAL] columns are read as exact numbers and written in [Z] (a
      quantity or a price counted in its smallest unit); rounding of
      binary floating point is not part of the model.
    - [TEXT] columns are strings, compared byte by byte as SQLite's
      default collation does.
    - The connection is a [world]: the tables as the connection sees
      them ([view]), the tables as last committed ([durable]), the
      outcomes the storage engine will give to the coming statements
      ([schedule]) and the records written to the logger ([log]). *)

From Stdlib Require Import ZArith List String Ascii Bool Lia.
From Stdlib Require Import Sorting.Sorted Sorting.Permutation.
Import ListNotations.
Local Open Scope Z_scope.

(* ================================================================= *)
(** ** Tables *)

Definition text := string.
Bind Scope string_scope with text.

Record product := mkProduct
  { p_id : Z; p_article : text; p_name : text; p_unit : option text }.

Record invoice := mkInvoice
  { i_id : Z; invoice_number : text; invoice_date : text;
    supplier : option text }.

Record invoice_item := mkInvoiceItem
  { ii_id : Z; ii_invoice_id : Z; ii_product_id : Z; ii_qty : Z;
    ii_price : Z; ii_vat_percent : Z; ii_total : Z;
    ii_total_with_vat : Z }.

Record sale := mkSale
  { s_id : Z; sale_number : text; sale_date : text;
    s_comment : option text }.

Record sale_item := mkSaleItem
  { si_id : Z; si_sale_id : Z; si_product_id : Z; si_qty : Z;
    si_price : Z; si_total : Z }.

Record fifo_row := mkFifo
  { sf_id : Z; sf_sale_item_id : Z; sf_batch_id : Z; sf_qty : Z;
    sf_cost_price : Z }.

(** [seq_sale_items] and [seq_sale_fifo] are the [sqlite_sequence]
    entries of the two AUTOINCREMENT tables the modelled code inserts
    into. *)
Record db := mkDb
  { products : list product;
    invoices : list invoice;
    invoice_items : list invoice_item;
    sales : list sale;
    sale_items : list sale_item;
    sale_fifo : list fifo_row;
    seq_sale_items : Z;
    seq_sale_fifo : Z }.

Definition set_sale_fifo (d : db) (rows : list fifo_row) (seq : Z) : db :=
  mkDb (products d) (invoices d) (invoice_items d) (sales d)
       (sale_items d) rows (seq_sale_items d) seq.

Definition set_sale_items (d : db) (rows : list sale_item) (seq : Z) : db :=
  mkDb (products d) (invoices d) (invoice_items d) (sales d)
       rows (sale_fifo d) seq (seq_sale_fifo d).

(** The rowid an AUTOINCREMENT table gives to a new row: one more than
    the largest rowid the table holds or ever held. *)
Definition next_rowid (seq : Z) (ids : list Z) : Z :=
  Z.max seq (fold_right Z.max 0 ids) + 1.

(** [COALESCE(SUM(x), 0)]. *)
Definition SUM (l : list Z) : Z := fold_right Z.add 0 l.


(* ================================================================= *)
(** ** ORDER BY: a stable insertion sort of the enumerated rows *)

Section OrderBy.
Context {A : Type}.
Variable leb : A -> A -> bool.

Fixpoint insert_row (x : A) (l : list A) : list A :=
  match l with
  | [] => [x]
  | y :: l' => if leb x y then x :: y :: l' else y :: insert_row x l'
  end.

Definition order_by (l : list A) : list A :=
  fold_right insert_row [] l.
End OrderBy.

(** Text comparison of SQLite's BINARY collation. *)
Definition text_leb (a b : text) : bool := String.leb a b.


(** [ORDER BY i.invoice_date, ii.id] on the rows of the join. *)
Definition batch_leb (x y : invoice_item * invoice) : bool :=
  match String.compare (invoice_date (snd x)) (invoice_date (snd y)) with
  | Lt => true
  | Eq => ii_id (fst x) <=? ii_id (fst y)
  | Gt => false
  end.


(* ================================================================= *)
(** ** The connection: a state and exception monad *)

Inductive exn := TypeError | ValueError | OperationalError.

Inductive outcome (A : Type) : Type :=
| Ok (a : A)
| Raised (e : exn).
Arguments Ok {A} a.
Arguments Raised {A} e.

Inductive event :=
| LogRecalcStart (sale_id : Z)
| LogAllocating (si_id product_id qty_need : Z)
| LogInserted (si_id batch_id take cost : Z)
| LogRecalcFinished (sale_id : Z)
| LogMassStart (cutoff : text)
| LogMassError (sid : Z) (sn : text) (e : exn)
| LogMassFinishedErrors (n : nat)
| LogMassFinishedOk (total : nat).

Record world := mkWorld
  { view : db;
    durable : db;
    schedule : list bool;
    log : list event }.

Definition M (A : Type) : Type := world -> world * outcome A.

Definition ret {A} (a : A) : M A := fun w => (w, Ok a).

Definition bind {A B} (m : M A) (k : A -> M B) : M B :=
  fun w =>
    match m w with
    | (w', Ok a) => k a w'
    | (w', Raised e) => (w', Raised e)
    end.

Definition raise {A} (e : exn) : M A := fun w => (w, Raised e).

(** [try: m  except Exception as e: h e]. *)
Definition try_except {A} (m : M A) (h : exn -> M A) : M A :=
  fun w =>
    match m w with
    | (w', Ok a) => (w', Ok a)
    | (w', Raised e) => h e w'
    end.

Declare Scope py_scope.
Delimit Scope py_scope with py.
Notation "x <- c1 ;; c2" := (bind c1 (fun x => c2))
  (at level 61, c1 at next level, right associativity) : py_scope.
Notation "c1 ;; c2" := (bind c1 (fun _ => c2))
  (at level 61, right associativity) : py_scope.
Local Open Scope py_scope.

(** One statement sent to the engine: it goes through, or the engine
    raises, as the schedule says; an empty schedule is a storage that
    does not fail. A statement that raises changes no table. *)
Definition statement : M unit :=
  fun w =>
    match schedule w with
    | [] => (w, Ok tt)
    | false :: s => (mkWorld (view w) (durable w) s (log w), Ok tt)
    | true :: s =>
        (mkWorld (view w) (durable w) s (log w), Raised OperationalError)
    end.

(** [conn.execute("SELECT ...")]. *)
Definition query {A} (q : db -> A) : M A :=
  statement ;; fun w => (w, Ok (q (view w))).

(** [conn.execute("INSERT ...")], [conn.execute("DELETE ...")]. *)
Definition execute (f : db -> db) : M unit :=
  statement ;;
  fun w => (mkWorld (f (view w)) (durable w) (schedule w) (log w), Ok tt).

(** [conn.commit()]. *)
Definition commit : M unit :=
  statement ;;
  fun w => (mkWorld (view w) (view w) (schedule w) (log w), Ok tt).

(** [try: logger.info(...)  except Exception: pass]. *)
Definition logger (e : event) : M unit :=
  fun w => (mkWorld (view w) (durable w) (schedule w) (log w ++ [e]), Ok tt).

(** [row[0]] on the result of [fetchone()]: [None] is not
    subscriptable. *)
Definition subscript0 {A} (row : option A) : M A :=
  match row with
  | Some a => ret a
  | None => raise TypeError
  end.

(* ================================================================= *)
(** ** The queries of [recalc_fifo_for_sale] *)

(** [SELECT id FROM sale_items WHERE sale_id = ?]. *)
Definition items_of_sale (sale_id : Z) (d : db) : list sale_item :=
  filter (fun it => si_sale_id it =? sale_id) (sale_items d).

Definition in_ids (x : Z) (ids : list Z) : bool := existsb (Z.eqb x) ids.

(** [DELETE FROM sale_fifo WHERE sale_item_id IN
     (SELECT id FROM sale_items WHERE sale_id = ?)]. *)
Definition delete_fifo_for_sale (sale_id : Z) (d : db) : db :=
  set_sale_fifo d
    (filter (fun r => negb (in_ids (sf_sale_item_id r)
                                   (map si_id (items_of_sale sale_id d))))
            (sale_fifo d))
    (seq_sale_fifo d).

(** [SELECT id, product_id, qty FROM sale_items WHERE sale_id = ?]. *)
Definition select_items (sale_id : Z) (d : db) : list (Z * Z * Z) :=
  map (fun it => (si_id it, si_product_id it, si_qty it))
      (items_of_sale sale_id d).

(** [SELECT sale_date FROM sales WHERE id = ?], then [fetchone()]. *)
Definition select_sale_date (sale_id : Z) (d : db) : option text :=
  match filter (fun s => s_id s =? sale_id) (sales d) with
  | [] => None
  | s :: _ => Some (sale_date s)
  end.

(** [FROM invoice_items ii JOIN invoices i ON i.id = ii.invoice_id]. *)
Definition join_invoices (d : db) : list (invoice_item * invoice) :=
  flat_map
    (fun ii => map (pair ii)
                   (filter (fun i => i_id i =? ii_invoice_id ii) (invoices d)))
    (invoice_items d).

(** The joined rows with [ii.product_id = ? AND i.invoice_date <= ?],
    in the order [ORDER BY i.invoice_date, ii.id]. *)
Definition eligible_batches (product_id : Z) (sale_date : text) (d : db)
  : list (invoice_item * invoice) :=
  order_by batch_leb
    (filter (fun x => (ii_product_id (fst x) =? product_id)
                      && text_leb (invoice_date (snd x)) sale_date)
            (join_invoices d)).

(** [SELECT ii.id, ii.qty, ii.price ...]. *)
Definition batch_columns (x : invoice_item * invoice) : Z * Z * Z :=
  (ii_id (fst x), ii_qty (fst x), ii_price (fst x)).

Definition select_batches (product_id : Z) (sale_date : text) (d : db)
  : list (Z * Z * Z) :=
  map batch_columns (eligible_batches product_id sale_date d).

(** [SELECT COALESCE(SUM(qty),0) FROM sale_fifo WHERE batch_id = ?]. *)
Definition select_used (batch_id : Z) (d : db) : Z :=
  SUM (map sf_qty (filter (fun r => sf_batch_id r =? batch_id) (sale_fifo d))).

(** [INSERT INTO sale_fifo (sale_item_id, batch_id, qty, cost_price)
     VALUES (?,?,?,?)]. *)
Definition insert_fifo (si_id batch_id take cost : Z) (d : db) : db :=
  let id := next_rowid (seq_sale_fifo d) (map sf_id (sale_fifo d)) in
  set_sale_fifo d (sale_fifo d ++ [mkFifo id si_id batch_id take cost]) id.

(* ================================================================= *)
(** ** [recalc_fifo_for_sale] *)

(** The loop [for batch_id, batch_qty, cost in batches]; its value is
    the local [remaining] when the loop is left. *)
Fixpoint alloc_batches (si_id remaining : Z) (batches : list (Z * Z * Z))
  : M Z :=
  match batches with
  | [] => ret remaining
  | (batch_id, batch_qty, cost) :: rest =>
      used <- query (select_used batch_id) ;;
      let available := batch_qty - used in
      if available <=? 0 then alloc_batches si_id remaining rest
      else
        let take := Z.min available remaining in
        execute (insert_fifo si_id batch_id take cost) ;;
        logger (LogInserted si_id batch_id take cost) ;;
        let remaining := remaining - take in
        if remaining <=? 0 then ret remaining
        else alloc_batches si_id remaining rest
  end.

(** The loop [for si_id, product_id, qty_need in items]; the value of
    the inner loop is dropped when the next item rebinds [remaining]. *)
Fixpoint alloc_items (sale_date : text) (items : list (Z * Z * Z))
  : M unit :=
  match items with
  | [] => ret tt
  | (si_id, product_id, qty_need) :: rest =>
      logger (LogAllocating si_id product_id qty_need) ;;
      batches <- query (select_batches product_id sale_date) ;;
      _ <- alloc_batches si_id qty_need batches ;;
      alloc_items sale_date rest
  end.

(** The function has no [return]: its value is [None], here [tt]. *)
Definition recalc_fifo_for_sale (sale_id : Z) : M unit :=
  logger (LogRecalcStart sale_id) ;;
  execute (delete_fifo_for_sale sale_id) ;;
  commit ;;
  items <- query (select_items sale_id) ;;
  row <- query (select_sale_date sale_id) ;;
  sale_date <- subscript0 row ;;
  alloc_items sale_date items ;;
  commit ;;
  logger (LogRecalcFinished sale_id).

(* ================================================================= *)
(** ** Mass recompute, stock queries and the pre-insert guard *)


Section Dates.

(** SQLite's built-in [DATE(x)]: the date of a time value as
    ['YYYY-MM-DD'] text, or NULL when [x] is not a time value. It is
    part of the engine, not of the application; the definitions take
    it as it is. *)
Variable DATE : text -> option text.











(** [INSERT INTO sale_items (sale_id, product_id, qty, price, total)
     VALUES (?, ?, ?, ?, ?)]. *)
Definition insert_sale_item (sale_id product_id qty price total : Z)
  (d : db) : db :=
  let id := next_rowid (seq_sale_items d) (map si_id (sale_items d)) in
  set_sale_items d
    (sale_items d ++ [mkSaleItem id sale_id product_id qty price total]) id.

Definition add_sale_item (sale_id product_id qty price : Z) : M unit :=
  let total := qty * price in
  execute (insert_sale_item sale_id product_id qty price total) ;;
  commit ;;
  try_except (recalc_fifo_for_sale sale_id) (fun _ => ret tt).






End Dates.

(* ================================================================= *)
(** ** What a run that is not interrupted does to the tables *)

(** The tables after the loop over the batches when no statement
    raises, and the final [remaining]; [alloc_batches_run] ties the
    loop on the connection to it, and so for the two definitions that
    follow. *)
Fixpoint alloc_batches_db (si_id remaining : Z) (batches : list (Z * Z * Z))
  (d : db) : db * Z :=
  match batches with
  | [] => (d, remaining)
  | (batch_id, batch_qty, cost) :: rest =>
      let available := batch_qty - select_used batch_id d in
      if available <=? 0 then alloc_batches_db si_id remaining rest d
      else
        let take := Z.min available remaining in
        let d' := insert_fifo si_id batch_id take cost d in
        if remaining - take <=? 0 then (d', remaining - take)
        else alloc_batches_db si_id (remaining - take) rest d'
  end.

Fixpoint alloc_items_db (sale_date : text) (items : list (Z * Z * Z))
  (d : db) : db :=
  match items with
  | [] => d
  | (si_id, product_id, qty_need) :: rest =>
      alloc_items_db sale_date rest
        (fst (alloc_batches_db si_id qty_need
                (select_batches product_id sale_date d) d))
  end.

Definition recalc_db (sale_id : Z) (d : db) : option db :=
  let d0 := delete_fifo_for_sale sale_id d in
  match select_sale_date sale_id d0 with
  | None => None
  | Some sale_date =>
      Some (alloc_items_db sale_date (select_items sale_id d0) d0)
  end.

(** The columns of an allocation row without its rowid. *)
Definition row_data (r : fifo_row) : Z * Z * Z * Z :=
  (sf_sale_item_id r, sf_batch_id r, sf_qty r, sf_cost_price r).

(** The allocation rows of one sale line. *)
Definition rows_of_item (si : Z) (d : db) : list fifo_row :=
  filter (fun r => sf_sale_item_id r =? si) (sale_fifo d).

(** Quantity allocated to one sale line. *)
Definition allocated (si : Z) (d : db) : Z :=
  SUM (map sf_qty (rows_of_item si d)).

(** The tables the recompute reads. *)
Definition same_base (d d' : db) : Prop :=
  products d' = products d /\
  invoices d' = invoices d /\
  invoice_items d' = invoice_items d /\
  sales d' = sales d /\
  sale_items d' = sale_items d.

(* ================================================================= *)
(** ** Predicates of the statements *)

(** A batch with its parent invoice is eligible for a sale line when
    it is a batch of the line's product and the invoice is dated on or
    before the sale. *)
Definition eligible (d : db) (product_id : Z) (sale_date : text)
  (x : invoice_item * invoice) : Prop :=
  In (fst x) (invoice_items d) /\ In (snd x) (invoices d) /\
  i_id (snd x) = ii_invoice_id (fst x) /\
  ii_product_id (fst x) = product_id /\
  text_leb (invoice_date (snd x)) sale_date = true.


(** The start records among the records of a log. *)
Fixpoint recalc_starts (l : list event) : list Z :=
  match l with
  | [] => []
  | LogRecalcStart sid :: l' => sid :: recalc_starts l'
  | _ :: l' => recalc_starts l'
  end.

(** What the code inside one recompute may do to the connection:
    write allocation rows, leave the committed tables alone, log
    records other than the start of a recompute; and a storage that
    does not fail stays so. *)
Definition steps (w w' : world) : Prop :=
  same_base (view w) (view w') /\
  durable w' = durable w /\
  (exists l, log w' = log w ++ l /\ recalc_starts l = []) /\
  (schedule w = [] -> schedule w' = []).

(** Every row of [bs] shows a batch of the table with its quantity. *)
Definition from_items (d : db) (bs : list (Z * Z * Z)) : Prop :=
  forall b q c, In (b, q, c) bs ->
    exists ii, In ii (invoice_items d) /\ ii_id ii = b /\ ii_qty ii = q.



(** The first batch of a list that still has capacity. *)
Definition first_available (bs : list (Z * Z * Z)) (d : db)
  : option (Z * Z * Z) :=
  find (fun x => 0 <? snd (fst x) - select_used (fst (fst x)) d) bs.

Definition item_ids (items : list (Z * Z * Z)) : list Z :=
  map (fun x => fst (fst x)) items.

(** Two states of the tables that differ at most in the rowids of the
    allocation rows and in the rowid sequence. *)
Definition fifo_equiv (d e : db) : Prop :=
  same_base d e /\
  map row_data (sale_fifo d) = map row_data (sale_fifo e).

(* ================================================================= *)
(** ** A ledger to run the code on *)



(** A connection with nothing pending. *)
Definition connect (d : db) (sched : list bool) : world :=
  mkWorld d d sched [].

(** One product; batch 2 (5 units at 4, received 2026-01-01) and
    batch 1 (5 units at 6, received 2026-01-02); sale 1 of 2026-02-01
    with one line of [need] units, sale 2 of 2026-02-02 with one line
    of 1 unit. The allocation table holds a row of sale 1 from an
    earlier state of the data and the row of sale 2. *)
Definition ledger (need : Z) : db :=
  mkDb
    [mkProduct 1 "P001" "Test Product" (Some "pc"%string)]
    [mkInvoice 1 "INV-1" "2026-01-01" (Some "Supplier"%string);
     mkInvoice 2 "INV-2" "2026-01-02" (Some "Supplier"%string)]
    [mkInvoiceItem 1 2 1 5 6 0 30 30;
     mkInvoiceItem 2 1 1 5 4 0 20 20]
    [mkSale 1 "S-1" "2026-02-01" None;
     mkSale 2 "S-2" "2026-02-02" None]
    [mkSaleItem 1 1 1 need 10 (need * 10);
     mkSaleItem 2 2 1 1 10 10]
    [mkFifo 1 1 1 2 6;
     mkFifo 2 2 2 1 4]
    2 2.

(** The storage fails at the eighth statement of the recompute of
    sale 1: the SELECT that follows the first INSERT. *)
Definition interrupted : world :=
  connect (ledger 8)
    [false; false; false; false; false; false; false; true].


(** The test of [test_fifo.py]: one batch of 10 units at 5.0 received
    2026-01-01, one sale line of 3 units sold 2026-02-01. *)
Definition test_fifo_db : db :=
  mkDb
    [mkProduct 1 "P001" "Test Product" (Some "pc"%string)]
    [mkInvoice 1 "INV-1" "2026-01-01" (Some "Supplier"%string)]
    [mkInvoiceItem 1 1 1 10 5 0 50 50]
    [mkSale 1 "S-1" "2026-02-01" (Some EmptyString)]
    [mkSaleItem 1 1 1 3 10 30]
    [] 1 0.

(** The connection after the recompute of sale 1 of the ledger. *)
Definition recomputed (need : Z) : world :=
  fst (recalc_fifo_for_sale 1 (connect (ledger need) [])).

(* ================================================================= *)
(** ** The other operations on sales and batches *)

(** [SELECT sale_id FROM sale_items WHERE id = ?], then [fetchone()]. *)
Definition select_item_sale (item_id : Z) (d : db) : option Z :=
  match filter (fun it => si_id it =? item_id) (sale_items d) with
  | [] => None
  | it :: _ => Some (si_sale_id it)
  end.

(** [UPDATE sale_items SET qty=?, price=?, total=? WHERE id=?]. *)
Definition update_item_row (item_id qty price total : Z) (d : db) : db :=
  set_sale_items d
    (map (fun it =>
            if si_id it =? item_id
            then mkSaleItem (si_id it) (si_sale_id it) (si_product_id it)
                            qty price total
            else it)
         (sale_items d))
    (seq_sale_items d).

(** [DELETE FROM sale_items WHERE id=?]. *)
Definition delete_item_row (item_id : Z) (d : db) : db :=
  set_sale_items d
    (filter (fun it => negb (si_id it =? item_id)) (sale_items d))
    (seq_sale_items d).

(** [DELETE FROM sale_items WHERE sale_id=?]. *)
Definition delete_items_of_sale (sale_id : Z) (d : db) : db :=
  set_sale_items d
    (filter (fun it => negb (si_sale_id it =? sale_id)) (sale_items d))
    (seq_sale_items d).

(** [DELETE FROM sales WHERE id=?]. *)
Definition delete_sale_row (sale_id : Z) (d : db) : db :=
  mkDb (products d) (invoices d) (invoice_items d)
       (filter (fun s => negb (s_id s =? sale_id)) (sales d))
       (sale_items d) (sale_fifo d) (seq_sale_items d) (seq_sale_fifo d).

(** [DELETE FROM invoice_items WHERE id=?]. *)
Definition delete_invoice_item_row (item_id : Z) (d : db) : db :=
  mkDb (products d) (invoices d)
       (filter (fun ii => negb (ii_id ii =? item_id)) (invoice_items d))
       (sales d) (sale_items d) (sale_fifo d)
       (seq_sale_items d) (seq_sale_fifo d).

Definition update_sale_item (item_id qty price : Z) : M unit :=
  let total := qty * price in
  execute (update_item_row item_id qty price total) ;;
  commit ;;
  try_except
    (row <- query (select_item_sale item_id) ;;
     match row with
     | Some sale_id => recalc_fifo_for_sale sale_id
     | None => ret tt
     end)
    (fun _ => ret tt).

Definition delete_sale_item (item_id : Z) : M unit :=
  sale_id <- try_except (query (select_item_sale item_id))
                        (fun _ => ret None) ;;
  execute (delete_item_row item_id) ;;
  commit ;;
  try_except
    (match sale_id with
     | Some sale_id => recalc_fifo_for_sale sale_id
     | None => ret tt
     end)
    (fun _ => ret tt).

Definition delete_sale (sale_id : Z) : M unit :=
  try_except (execute (delete_fifo_for_sale sale_id)) (fun _ => ret tt) ;;
  execute (delete_items_of_sale sale_id) ;;
  execute (delete_sale_row sale_id) ;;
  commit.

Definition delete_invoice_item (item_id : Z) : M unit :=
  execute (delete_invoice_item_row item_id) ;;
  commit.

Section StockOnDate.

Variable DATE : text -> option text.



End StockOnDate.

(* ================================================================= *)
(** ** [recalc_fifo_for_sale] as [test_fifo.py] defines it *)

Fixpoint test_alloc_batches (si_id remaining : Z)
  (batches : list (Z * Z * Z)) : M Z :=
  match batches with
  | [] => ret remaining
  | (batch_id, batch_qty, cost) :: rest =>
      used <- query (select_used batch_id) ;;
      let available := batch_qty - used in
      if available <=? 0 then test_alloc_batches si_id remaining rest
      else
        let take := Z.min available remaining in
        execute (insert_fifo si_id batch_id take cost) ;;
        let remaining := remaining - take in
        if remaining <=? 0 then ret remaining
        else test_alloc_batches si_id remaining rest
  end.

Fixpoint test_alloc_items (sale_date : text) (items : list (Z * Z * Z))
  : M unit :=
  match items with
  | [] => ret tt
  | (si_id, product_id, qty_need) :: rest =>
      batches <- query (select_batches product_id sale_date) ;;
      _ <- test_alloc_batches si_id qty_need batches ;;
      test_alloc_items sale_date rest
  end.

Definition test_recalc_fifo_for_sale (sale_id : Z) : M unit :=
  execute (delete_fifo_for_sale sale_id) ;;
  commit ;;
  items <- query (select_items sale_id) ;;
  row <- query (select_sale_date sale_id) ;;
  sale_date <- subscript0 row ;;
  test_alloc_items sale_date items ;;
  commit.

(* ================================================================= *)
(** ** Predicates of the further statements *)


(** The next [n] statements go through. *)
Definition clear_for (n : nat) (w : world) : Prop :=
  forallb negb (firstn n (schedule w)) = true.

(** Two connections that differ at most in their logs. *)
Definition same_conn (w v : world) : Prop :=
  view w = view v /\ durable w = durable v /\ schedule w = schedule v.

(** Two computations that do the same to connections that differ at
    most in their logs. *)
Definition sim {A} (m m' : M A) : Prop :=
  forall w v, same_conn w v ->
    same_conn (fst (m w)) (fst (m' v)) /\ snd (m w) = snd (m' v).




(* ================================================================= *)
(** ** The order of texts *)

Lemma ascii_compare_refl (a : ascii) : Ascii.compare a a = Eq.
Proof. unfold Ascii.compare. apply N.compare_refl. Qed.


Lemma text_compare_refl (s : text) : String.compare s s = Eq.
Proof.
  induction s as [|a s IH]; simpl; [reflexivity|].
  now rewrite ascii_compare_refl.
Qed.



Lemma text_leb_refl (s : text) : text_leb s s = true.
Proof. unfold text_leb, String.leb. now rewrite text_compare_refl. Qed.







(* ================================================================= *)
(** ** ORDER BY returns the rows it was given, in order *)

Section OrderByFacts.
Context {A : Type}.
Variable leb : A -> A -> bool.
Hypothesis leb_total : forall x y, leb x y = true \/ leb y x = true.
Hypothesis leb_trans :
  forall x y z, leb x y = true -> leb y z = true -> leb x z = true.

Lemma insert_row_perm (x : A) (l : list A) :
  Permutation (x :: l) (insert_row leb x l).
Proof.
  induction l as [|y l IH]; simpl; [reflexivity|].
  destruct (leb x y); [reflexivity|].
  rewrite perm_swap. now constructor.
Qed.

Lemma order_by_perm (l : list A) : Permutation l (order_by leb l).
Proof.
  induction l as [|x l IH]; simpl; [constructor|].
  rewrite <- insert_row_perm. now constructor.
Qed.

Lemma order_by_In (l : list A) (x : A) : In x (order_by leb l) <-> In x l.
Proof.
  split; apply Permutation_in;
    [symmetry|]; apply order_by_perm.
Qed.



End OrderByFacts.

(* ================================================================= *)
(** ** Running the connection monad *)

Lemma bind_inv {A B} (m : M A) (k : A -> M B) (w w' : world)
  (o : outcome B) :
  bind m k w = (w', o) ->
  (exists w1 a, m w = (w1, Ok a) /\ k a w1 = (w', o)) \/
  (exists e, m w = (w', Raised e) /\ o = Raised e).
Proof.
  unfold bind. destruct (m w) as [w1 [a | e]]; intros H.
  - left. eauto.
  - right. inversion H; subst. eauto.
Qed.

Lemma recalc_starts_app (l1 l2 : list event) :
  recalc_starts (l1 ++ l2) = recalc_starts l1 ++ recalc_starts l2.
Proof.
  induction l1 as [|e l1 IH]; simpl; [reflexivity|].
  destruct e; simpl; now rewrite IH.
Qed.

Lemma same_base_refl (d : db) : same_base d d.
Proof. repeat split. Qed.

Lemma same_base_trans (d1 d2 d3 : db) :
  same_base d1 d2 -> same_base d2 d3 -> same_base d1 d3.
Proof.
  unfold same_base. intros (?&?&?&?&?) (?&?&?&?&?).
  repeat split; congruence.
Qed.

Lemma same_base_sym (d1 d2 : db) : same_base d1 d2 -> same_base d2 d1.
Proof. unfold same_base. intros (?&?&?&?&?). repeat split; congruence. Qed.

Lemma steps_refl (w : world) : steps w w.
Proof.
  repeat split; auto. exists []. now rewrite app_nil_r.
Qed.

Lemma steps_trans (w1 w2 w3 : world) :
  steps w1 w2 -> steps w2 w3 -> steps w1 w3.
Proof.
  intros (Hb1 & Hd1 & (l1 & Hl1 & Hq1) & Hs1)
         (Hb2 & Hd2 & (l2 & Hl2 & Hq2) & Hs2).
  split; [eapply same_base_trans; eassumption|].
  split; [congruence|]. split; [|auto].
  exists (l1 ++ l2). rewrite Hl2, Hl1, <- app_assoc. split; [reflexivity|].
  now rewrite recalc_starts_app, Hq1, Hq2.
Qed.

Lemma statement_inv (w w' : world) (o : outcome unit) :
  statement w = (w', o) ->
  view w' = view w /\ durable w' = durable w /\ log w' = log w /\
  (schedule w = [] -> schedule w' = []) /\
  match o with Ok _ => True | Raised _ => schedule w <> [] end.
Proof.
  unfold statement. destruct (schedule w) as [|[|] s] eqn:Hs;
    intros H; inversion H; subst; simpl; repeat split; congruence.
Qed.

Lemma query_inv {A} (q : db -> A) (w w' : world) (o : outcome A) :
  query q w = (w', o) ->
  view w' = view w /\ durable w' = durable w /\ log w' = log w /\
  (schedule w = [] -> schedule w' = []) /\
  match o with Ok a => a = q (view w) | Raised _ => schedule w <> [] end.
Proof.
  unfold query. intros H. apply bind_inv in H.
  destruct H as [(w1 & [] & H1 & H2) | (e & H1 & ->)];
    apply statement_inv in H1; destruct H1 as (Hv & Hd & Hl & Hs & Ho).
  - inversion H2; subst. repeat split; auto. now rewrite Hv.
  - repeat split; auto.
Qed.

Lemma execute_inv (f : db -> db) (w w' : world) (o : outcome unit) :
  execute f w = (w', o) ->
  durable w' = durable w /\ log w' = log w /\
  (schedule w = [] -> schedule w' = []) /\
  match o with
  | Ok _ => view w' = f (view w)
  | Raised _ => view w' = view w /\ schedule w <> []
  end.
Proof.
  unfold execute. intros H. apply bind_inv in H.
  destruct H as [(w1 & [] & H1 & H2) | (e & H1 & ->)];
    apply statement_inv in H1; destruct H1 as (Hv & Hd & Hl & Hs & Ho).
  - inversion H2; subst; simpl. repeat split; auto. now rewrite Hv.
  - repeat split; auto.
Qed.

Lemma commit_inv (w w' : world) (o : outcome unit) :
  commit w = (w', o) ->
  view w' = view w /\ log w' = log w /\
  (schedule w = [] -> schedule w' = []) /\
  match o with
  | Ok _ => durable w' = view w
  | Raised _ => durable w' = durable w /\ schedule w <> []
  end.
Proof.
  unfold commit. intros H. apply bind_inv in H.
  destruct H as [(w1 & [] & H1 & H2) | (e & H1 & ->)];
    apply statement_inv in H1; destruct H1 as (Hv & Hd & Hl & Hs & Ho).
  - inversion H2; subst; simpl. repeat split; auto.
  - repeat split; auto.
Qed.

Lemma logger_inv (e : event) (w w' : world) (o : outcome unit) :
  logger e w = (w', o) ->
  o = Ok tt /\ view w' = view w /\ durable w' = durable w /\
  log w' = log w ++ [e] /\ schedule w' = schedule w.
Proof. unfold logger. intros H. inversion H; subst. now simpl. Qed.


Lemma query_steps {A} (q : db -> A) (w w' : world) (o : outcome A) :
  query q w = (w', o) -> steps w w'.
Proof.
  intros H. apply query_inv in H. destruct H as (Hv & Hd & Hl & Hs & _).
  split; [rewrite Hv; apply same_base_refl|].
  repeat split; auto. exists []. now rewrite app_nil_r.
Qed.

Lemma insert_fifo_base (si b take cost : Z) (d : db) :
  same_base d (insert_fifo si b take cost d).
Proof. repeat split. Qed.

Lemma delete_fifo_base (sid : Z) (d : db) :
  same_base d (delete_fifo_for_sale sid d).
Proof. repeat split. Qed.

Lemma execute_steps (f : db -> db) (w w' : world) (o : outcome unit) :
  (forall d, same_base d (f d)) ->
  execute f w = (w', o) -> steps w w'.
Proof.
  intros Hf H. apply execute_inv in H. destruct H as (Hd & Hl & Hs & Ho).
  split.
  - destruct o as [[]|e0]; [rewrite Ho; apply Hf|].
    destruct Ho as [-> _]. apply same_base_refl.
  - repeat split; auto. exists []. now rewrite app_nil_r.
Qed.

Lemma logger_steps (e : event) (w w' : world) (o : outcome unit) :
  recalc_starts [e] = [] ->
  logger e w = (w', o) -> steps w w'.
Proof.
  intros He H. apply logger_inv in H.
  destruct H as (_ & Hv & Hd & Hl & Hs).
  split; [rewrite Hv; apply same_base_refl|].
  repeat split; auto; [|congruence]. now exists [e].
Qed.

Lemma steps_schedule (w w' : world) :
  steps w w' -> schedule w' <> [] -> schedule w <> [].
Proof. intros (_ & _ & _ & Hs) H1 H2. auto. Qed.

(** The loop over the batches, run on the connection. *)
Lemma alloc_batches_run (si : Z) (batches : list (Z * Z * Z)) :
  forall (remaining : Z) (w w' : world) (o : outcome Z),
    alloc_batches si remaining batches w = (w', o) ->
    steps w w' /\
    match o with
    | Ok r => alloc_batches_db si remaining batches (view w) = (view w', r)
    | Raised _ => schedule w <> []
    end.
Proof.
  induction batches as [|[[b q] c] rest IH]; intros rem w w' o H.
  - inversion H; subst. split; [apply steps_refl | reflexivity].
  - cbn [alloc_batches alloc_batches_db] in *.
    apply bind_inv in H.
    destruct H as [(w1 & used & Hq & H) | (e & Hq & ->)].
    2:{ split; [eapply query_steps; eassumption|].
        apply query_inv in Hq. tauto. }
    pose proof (query_steps _ _ _ _ Hq) as S1.
    apply query_inv in Hq. destruct Hq as (Hv1 & _ & _ & _ & ->).
    destruct (q - select_used b (view w) <=? 0) eqn:Hav.
    + apply IH in H. destruct H as [S2 Ho]. rewrite Hv1 in Ho.
      split; [eapply steps_trans; eassumption|].
      destruct o; [assumption | eapply steps_schedule; eassumption].
    + apply bind_inv in H.
      destruct H as [(w2 & [] & Hx & H) | (e & Hx & ->)].
      2:{ pose proof (execute_steps _ _ _ _
                        (insert_fifo_base si b _ c) Hx) as S2.
          split; [eapply steps_trans; eassumption|].
          apply execute_inv in Hx. destruct Hx as (_ & _ & _ & _ & Hs).
          eapply steps_schedule; eassumption. }
      pose proof (execute_steps _ _ _ _ (insert_fifo_base si b _ c) Hx) as S2.
      apply execute_inv in Hx. destruct Hx as (_ & _ & _ & Hv2).
      rewrite Hv1 in Hv2.
      apply bind_inv in H.
      destruct H as [(w3 & [] & Hg & H) | (e & Hg & ->)].
      2:{ apply logger_inv in Hg. destruct Hg as [Hg _]. discriminate. }
      assert (S3 : steps w2 w3)
        by (eapply logger_steps; [|exact Hg]; reflexivity).
      apply logger_inv in Hg. destruct Hg as (_ & Hv3 & _).
      pose proof (steps_trans _ _ _ S1 (steps_trans _ _ _ S2 S3)) as S13.
      destruct (rem - Z.min (q - select_used b (view w)) rem <=? 0) eqn:Hr.
      * inversion H; subst. split; [assumption|].
        now rewrite Hv3, Hv2.
      * apply IH in H. destruct H as [S4 Ho].
        split; [eapply steps_trans; eassumption|].
        destruct o; [now rewrite Hv3, Hv2 in Ho|].
        eapply steps_schedule; eassumption.
Qed.

(** The loop over the sale lines, run on the connection. *)
Lemma alloc_items_run (sale_date : text) (items : list (Z * Z * Z)) :
  forall (w w' : world) (o : outcome unit),
    alloc_items sale_date items w = (w', o) ->
    steps w w' /\
    match o with
    | Ok _ => view w' = alloc_items_db sale_date items (view w)
    | Raised _ => schedule w <> []
    end.
Proof.
  induction items as [|[[si p] need] rest IH]; intros w w' o H.
  - inversion H; subst. split; [apply steps_refl | reflexivity].
  - cbn [alloc_items alloc_items_db] in *.
    apply bind_inv in H.
    destruct H as [(w1 & [] & Hg & H) | (e & Hg & ->)].
    2:{ apply logger_inv in Hg. destruct Hg as [Hg _]. discriminate. }
    assert (S1 : steps w w1)
      by (eapply logger_steps; [|exact Hg]; reflexivity).
    apply logger_inv in Hg. destruct Hg as (_ & Hv1 & _).
    apply bind_inv in H.
    destruct H as [(w2 & batches & Hq & H) | (e & Hq & ->)].
    2:{ pose proof (query_steps _ _ _ _ Hq) as S2.
        split; [eapply steps_trans; eassumption|].
        apply query_inv in Hq. destruct Hq as (_ & _ & _ & _ & Hs).
        eapply steps_schedule; eassumption. }
    pose proof (query_steps _ _ _ _ Hq) as S2.
    apply query_inv in Hq. destruct Hq as (Hv2 & _ & _ & _ & ->).
    pose proof (steps_trans _ _ _ S1 S2) as S12.
    apply bind_inv in H.
    destruct H as [(w3 & r & Hb & H) | (e & Hb & ->)].
    2:{ apply alloc_batches_run in Hb. destruct Hb as [S3 Hs].
        split; [eapply steps_trans; eassumption|].
        eapply steps_schedule; eassumption. }
    apply alloc_batches_run in Hb. destruct Hb as [S3 Hb].
    apply IH in H. destruct H as [S4 Ho].
    pose proof (steps_trans _ _ _ S12 S3) as S13.
    split; [eapply steps_trans; eassumption|].
    destruct o as [[]|e].
    + rewrite Ho. rewrite Hv2, Hv1 in Hb. now rewrite Hb.
    + eapply steps_schedule; eassumption.
Qed.

(** One call of [recalc_fifo_for_sale], whatever its outcome. *)
Lemma recalc_run (sale_id : Z) (w w' : world) (o : outcome unit) :
  recalc_fifo_for_sale sale_id w = (w', o) ->
  same_base (view w) (view w') /\
  (exists l, log w' = log w ++ LogRecalcStart sale_id :: l /\
             recalc_starts l = []) /\
  (schedule w = [] -> schedule w' = []) /\
  match o with
  | Ok _ => recalc_db sale_id (view w) = Some (view w') /\
            durable w' = view w'
  | Raised e =>
      (durable w' = durable w \/
       durable w' = delete_fifo_for_sale sale_id (view w)) /\
      (schedule w = [] ->
       recalc_db sale_id (view w) = None /\ e = TypeError)
  end.
Proof.
  unfold recalc_fifo_for_sale, recalc_db. intros H.
  (* logger.info *)
  apply bind_inv in H. destruct H as [(w1 & [] & Hg & H) | (e & Hg & ->)].
  2:{ apply logger_inv in Hg. destruct Hg as [Hg _]. discriminate. }
  apply logger_inv in Hg. destruct Hg as (_ & Hv1 & Hd1 & Hl1 & Hs1).
  (* DELETE *)
  apply bind_inv in H. destruct H as [(w2 & [] & Hx & H) | (e & Hx & ->)].
  2:{ apply execute_inv in Hx. destruct Hx as (Hd & Hl & Hs & Hv & Hne).
      split; [rewrite Hv, Hv1; apply same_base_refl|].
      split; [exists []; split; [congruence | reflexivity]|].
      split; [intros; apply Hs; congruence|].
      split; [left; congruence | intros; exfalso; apply Hne; congruence]. }
  apply execute_inv in Hx. destruct Hx as (Hd2 & Hl2 & Hs2 & Hv2).
  rewrite Hv1 in Hv2.
  (* commit *)
  apply bind_inv in H. destruct H as [(w3 & [] & Hc & H) | (e & Hc & ->)].
  2:{ apply commit_inv in Hc. destruct Hc as (Hv & Hl & Hs & Hd & Hne).
      split; [rewrite Hv, Hv2; apply delete_fifo_base|].
      split; [exists []; split; [congruence | reflexivity]|].
      split; [intros; apply Hs, Hs2; congruence|].
      split; [left; congruence|].
      intros; exfalso; apply Hne, Hs2; congruence. }
  apply commit_inv in Hc. destruct Hc as (Hv3 & Hl3 & Hs3 & Hd3).
  rewrite Hv2 in Hv3, Hd3.
  assert (S03 : forall w4, steps w3 w4 ->
            same_base (view w) (view w4) /\
            (exists l, log w4 = log w ++ LogRecalcStart sale_id :: l /\
                       recalc_starts l = []) /\
            (schedule w = [] -> schedule w4 = []) /\
            durable w4 = delete_fifo_for_sale sale_id (view w)).
  { intros w4 (Hb & Hd & (l & Hl & Hq) & Hs).
    split.
    { eapply same_base_trans; [apply (delete_fifo_base sale_id)|].
      now rewrite <- Hv3. }
    split.
    { exists l. split; [|assumption].
      rewrite Hl, Hl3, Hl2, Hl1, <- app_assoc. reflexivity. }
    split; [intros; apply Hs, Hs3, Hs2; congruence | congruence]. }
  (* SELECT items *)
  apply bind_inv in H. destruct H as [(w4 & items & Hq & H) | (e & Hq & ->)].
  2:{ destruct (S03 _ (query_steps _ _ _ _ Hq)) as (Hb & Hl & Hs & Hd).
      apply query_inv in Hq. destruct Hq as (_ & _ & _ & _ & Hne).
      repeat (split; [assumption|]).
      split; [now right|].
      intros; exfalso; apply Hne, Hs3, Hs2; congruence. }
  pose proof (query_steps _ _ _ _ Hq) as S4.
  apply query_inv in Hq. destruct Hq as (Hv4 & _ & _ & _ & ->).
  rewrite Hv3 in Hv4.
  (* SELECT sale_date *)
  apply bind_inv in H. destruct H as [(w5 & row & Hq & H) | (e & Hq & ->)].
  2:{ destruct (S03 _ (steps_trans _ _ _ S4 (query_steps _ _ _ _ Hq)))
        as (Hb & Hl & Hs & Hd).
      apply query_inv in Hq. destruct Hq as (_ & _ & _ & Hs4 & Hne).
      repeat (split; [assumption|]).
      split; [now right|].
      intros Hw; exfalso; apply Hne.
      destruct S4 as (_ & _ & _ & S4). apply S4, Hs3, Hs2. congruence. }
  pose proof (steps_trans _ _ _ S4 (query_steps _ _ _ _ Hq)) as S5.
  apply query_inv in Hq. destruct Hq as (Hv5 & _ & _ & _ & ->).
  rewrite Hv4 in Hv5. rewrite Hv4 in H.
  (* fetchone()[0] *)
  apply bind_inv in H. destruct H as [(w6 & sd & Hf & H) | (e & Hf & ->)].
  2:{ destruct (select_sale_date sale_id
                  (delete_fifo_for_sale sale_id (view w))) eqn:Hsd;
        simpl in Hf; inversion Hf; subst.
      destruct (S03 _ S5) as (Hb & Hl & Hs & Hd).
      repeat (split; [assumption|]).
      split; [now right | auto]. }
  destruct (select_sale_date sale_id
              (delete_fifo_for_sale sale_id (view w))) eqn:Hsd;
    simpl in Hf; inversion Hf; subst.
  (* the loops *)
  apply bind_inv in H. destruct H as [(w7 & [] & Ha & H) | (e & Ha & ->)].
  2:{ apply alloc_items_run in Ha. destruct Ha as [S6 Hne].
      destruct (S03 _ (steps_trans _ _ _ S5 S6)) as (Hb & Hl & Hs & Hd).
      repeat (split; [assumption|]).
      split; [now right|].
      intros Hw; exfalso; apply Hne.
      destruct S5 as (_ & _ & _ & S5). apply S5, Hs3, Hs2. congruence. }
  apply alloc_items_run in Ha. destruct Ha as [S6 Hv7].
  rewrite Hv5 in Hv7.
  pose proof (steps_trans _ _ _ S5 S6) as S7.
  (* commit *)
  apply bind_inv in H. destruct H as [(w8 & [] & Hc & H) | (e & Hc & ->)].
  2:{ apply commit_inv in Hc. destruct Hc as (Hv & Hl & Hs & Hd & Hne).
      destruct (S03 _ S7) as (Hb7 & (l7 & Hl7 & Hq7) & Hs7 & Hd7).
      split; [now rewrite Hv|].
      split; [exists l7; split; [congruence | assumption]|].
      split; [auto|].
      split; [right; congruence|].
      intros Hw; exfalso; apply Hne, Hs7, Hw. }
  apply commit_inv in Hc. destruct Hc as (Hv8 & Hl8 & Hs8 & Hd8).
  (* logger.info *)
  apply logger_inv in H. destruct H as (-> & Hv9 & Hd9 & Hl9 & Hs9).
  destruct (S03 _ S7) as (Hb7 & (l7 & Hl7 & Hq7) & Hs7 & Hd7).
  split; [now rewrite Hv9, Hv8|].
  split.
  { exists (l7 ++ [LogRecalcFinished sale_id]).
    rewrite Hl9, Hl8, Hl7, <- app_assoc. split; [reflexivity|].
    now rewrite recalc_starts_app, Hq7. }
  split; [intros; rewrite Hs9; auto|].
  split; [|congruence].
  rewrite Hv9, Hv8, Hv7, Hv3. reflexivity.
Qed.

(* ================================================================= *)
(** ** Sums and the rows of one pass *)


Lemma sale_fifo_insert (si b take c : Z) (d : db) :
  sale_fifo (insert_fifo si b take c d) =
  sale_fifo d ++
  [mkFifo (next_rowid (seq_sale_fifo d) (map sf_id (sale_fifo d)))
     si b take c].
Proof. reflexivity. Qed.





(** The rows one pass over the batches adds, and what is left of the
    demand. *)
Lemma alloc_batches_db_rows (si : Z) (bs : list (Z * Z * Z)) :
  forall (rem : Z) (d d' : db) (r : Z),
    alloc_batches_db si rem bs d = (d', r) ->
    same_base d d' /\
    exists new,
      sale_fifo d' = sale_fifo d ++ new /\
      Forall (fun x => sf_sale_item_id x = si /\
                       exists q, In (sf_batch_id x, q, sf_cost_price x) bs)
             new /\
      SUM (map sf_qty new) + r = rem /\
      (0 <= rem -> 0 <= r <= rem).
Proof.
  induction bs as [|[[b q] c] rest IH]; intros rem d d' r H;
    cbn [alloc_batches_db] in H.
  - inversion H; subst. split; [apply same_base_refl|].
    exists []. rewrite app_nil_r. repeat split; simpl; auto; lia.
  - destruct (q - select_used b d <=? 0) eqn:Hav.
    + apply IH in H. destruct H as (Hb & new & Hn & Hall & Hsum & Hpos).
      split; [assumption|]. exists new. repeat split; auto; try lia.
      eapply Forall_impl; [|exact Hall]. simpl.
      intros x (? & q0 & ?). eauto.
    + apply Z.leb_gt in Hav.
      set (take := Z.min (q - select_used b d) rem) in *.
      destruct (rem - take <=? 0) eqn:Hr.
      * inversion H; subst. split; [apply insert_fifo_base|].
        eexists. split; [apply sale_fifo_insert|].
        split; [|simpl; lia].
        constructor; [|constructor]. simpl. split; [reflexivity|].
        exists q. now left.
      * apply Z.leb_gt in Hr. apply IH in H.
        destruct H as (Hb & new & Hn & Hall & Hsum & Hpos).
        split.
        { eapply same_base_trans; [apply (insert_fifo_base si b take c)|].
          exact Hb. }
        eexists (_ :: new). split.
        { rewrite Hn, sale_fifo_insert, <- app_assoc. reflexivity. }
        split.
        { constructor.
          - simpl. split; [reflexivity|]. exists q. now left.
          - eapply Forall_impl; [|exact Hall]. simpl.
            intros x (? & q0 & ?). eauto. }
        simpl. split; [lia|]. intros Hrem.
        assert (0 <= take) by (unfold take; lia).
        assert (take <= rem) by (unfold take; lia). lia.
Qed.





(** A pass with a negative demand. *)
Lemma alloc_batches_db_negative (si : Z) (bs : list (Z * Z * Z)) :
  forall (rem : Z) (d : db),
    rem < 0 ->
    alloc_batches_db si rem bs d =
    match first_available bs d with
    | Some x => (insert_fifo si (fst (fst x)) rem (snd x) d, 0)
    | None => (d, rem)
    end.
Proof.
  unfold first_available.
  induction bs as [|[[b q] c] rest IH]; intros rem d Hneg;
    cbn [alloc_batches_db find fst snd]; [reflexivity|].
  destruct (q - select_used b d <=? 0) eqn:Hav.
  - apply Z.leb_le in Hav.
    assert (Hf : (0 <? q - select_used b d) = false)
      by (apply Z.ltb_ge; lia).
    rewrite Hf. now apply IH.
  - apply Z.leb_gt in Hav.
    assert (Hf : (0 <? q - select_used b d) = true)
      by (apply Z.ltb_lt; lia).
    rewrite Hf. rewrite Z.min_r by lia.
    rewrite Z.sub_diag. reflexivity.
Qed.

(* ================================================================= *)
(** ** The batches a sale line may draw from *)

Lemma join_invoices_In (d : db) (x : invoice_item * invoice) :
  In x (join_invoices d) <->
  In (fst x) (invoice_items d) /\ In (snd x) (invoices d) /\
  i_id (snd x) = ii_invoice_id (fst x).
Proof.
  unfold join_invoices. rewrite in_flat_map. split.
  - intros (ii & Hii & Hx). apply in_map_iff in Hx.
    destruct Hx as (i & <- & Hi). apply filter_In in Hi.
    destruct Hi as [Hi He]. apply Z.eqb_eq in He. simpl. auto.
  - destruct x as [ii i]. simpl. intros (Hii & Hi & He).
    exists ii. split; [assumption|]. apply in_map, filter_In.
    split; [assumption | now apply Z.eqb_eq].
Qed.

Lemma eligible_batches_In (p : Z) (sd : text) (d : db)
  (x : invoice_item * invoice) :
  In x (eligible_batches p sd d) <-> eligible d p sd x.
Proof.
  unfold eligible_batches, eligible.
  rewrite order_by_In, filter_In, join_invoices_In, andb_true_iff, Z.eqb_eq.
  tauto.
Qed.

Lemma select_batches_from_items (p : Z) (sd : text) (d : db) :
  from_items d (select_batches p sd d).
Proof.
  intros b q c Hin. unfold select_batches in Hin.
  apply in_map_iff in Hin. destruct Hin as (x & Hx & Hin).
  apply eligible_batches_In in Hin. destruct Hin as (Hii & _).
  inversion Hx; subst. eauto.
Qed.


Lemma select_batches_base (p : Z) (sd : text) (d d' : db) :
  same_base d d' -> select_batches p sd d' = select_batches p sd d.
Proof.
  intros (_ & Hi & Hii & _).
  unfold select_batches, eligible_batches, join_invoices.
  now rewrite Hi, Hii.
Qed.

(* ================================================================= *)
(** ** The loop over the sale lines *)

Lemma alloc_items_db_rows (sd : text) (items : list (Z * Z * Z)) :
  forall d : db,
    same_base d (alloc_items_db sd items d) /\
    exists new,
      sale_fifo (alloc_items_db sd items d) = sale_fifo d ++ new /\
      Forall (fun x => exists p need q,
                  In (sf_sale_item_id x, p, need) items /\
                  In (sf_batch_id x, q, sf_cost_price x)
                     (select_batches p sd d))
             new.
Proof.
  induction items as [|[[si p] need] rest IH]; intros d;
    cbn [alloc_items_db].
  - split; [apply same_base_refl|]. exists []. now rewrite app_nil_r.
  - destruct (alloc_batches_db si need (select_batches p sd d) d)
      as [d1 r] eqn:Hpass. cbn [fst].
    destruct (alloc_batches_db_rows _ _ _ _ _ _ Hpass)
      as (Hb1 & new1 & Hn1 & Hall1 & _).
    destruct (IH d1) as (Hb2 & new2 & Hn2 & Hall2).
    split; [eapply same_base_trans; eassumption|].
    exists (new1 ++ new2). split; [now rewrite Hn2, Hn1, app_assoc|].
    apply Forall_app. split.
    + eapply Forall_impl; [|exact Hall1]. simpl.
      intros x (<- & q & Hin). exists p, need, q. auto.
    + eapply Forall_impl; [|exact Hall2]. simpl.
      intros x (p0 & need0 & q & Hin1 & Hin2). exists p0, need0, q.
      rewrite <- (select_batches_base _ _ _ _ Hb1). auto.
Qed.



Lemma rows_of_item_app (si : Z) (d d' : db) (new : list fifo_row) :
  sale_fifo d' = sale_fifo d ++ new ->
  rows_of_item si d' =
  rows_of_item si d ++ filter (fun r => sf_sale_item_id r =? si) new.
Proof. unfold rows_of_item. intros ->. apply filter_app. Qed.


Lemma filter_item_none (si : Z) (l : list fifo_row) :
  Forall (fun x => sf_sale_item_id x <> si) l ->
  filter (fun r => sf_sale_item_id r =? si) l = [].
Proof.
  induction 1 as [|x l Hx _ IH]; simpl; [reflexivity|].
  apply Z.eqb_neq in Hx. now rewrite Hx.
Qed.


(* ================================================================= *)
(** ** Deleting the rows of a sale *)

Lemma in_ids_In (x : Z) (ids : list Z) : in_ids x ids = true <-> In x ids.
Proof.
  unfold in_ids. rewrite existsb_exists. split.
  - intros (y & Hy & He). apply Z.eqb_eq in He. now subst.
  - intros H. exists x. split; [assumption | apply Z.eqb_refl].
Qed.


Lemma item_ids_select_items (sid : Z) (d : db) :
  item_ids (select_items sid d) = map si_id (items_of_sale sid d).
Proof.
  unfold item_ids, select_items. rewrite map_map. reflexivity.
Qed.


Lemma rows_of_item_deleted (sid si : Z) (d : db) :
  In si (map si_id (items_of_sale sid d)) ->
  rows_of_item si (delete_fifo_for_sale sid d) = [].
Proof.
  intros Hin. unfold rows_of_item, delete_fifo_for_sale. simpl.
  apply filter_item_none. apply Forall_forall.
  intros r Hr Heq. apply filter_In in Hr. destruct Hr as [_ Hr].
  apply negb_true_iff in Hr.
  apply in_ids_In in Hin. congruence.
Qed.

(** The tables after a recompute that was not interrupted. *)
Lemma recalc_db_inv (sid : Z) (d d' : db) :
  recalc_db sid d = Some d' ->
  exists sd,
    select_sale_date sid d = Some sd /\
    d' = alloc_items_db sd (select_items sid d)
           (delete_fifo_for_sale sid d) /\
    same_base d d'.
Proof.
  unfold recalc_db. intros H.
  change (select_sale_date sid (delete_fifo_for_sale sid d))
    with (select_sale_date sid d) in H.
  change (select_items sid (delete_fifo_for_sale sid d))
    with (select_items sid d) in H.
  destruct (select_sale_date sid d) as [sd|]; [|discriminate].
  inversion H; subst. exists sd. repeat split; try reflexivity;
  apply (alloc_items_db_rows sd (select_items sid d)
           (delete_fifo_for_sale sid d)).
Qed.

Lemma recalc_db_rows (sid : Z) (d d' : db) :
  recalc_db sid d = Some d' ->
  exists sd new,
    select_sale_date sid d = Some sd /\
    sale_fifo d' = sale_fifo (delete_fifo_for_sale sid d) ++ new /\
    Forall (fun x => exists p need q,
                In (sf_sale_item_id x, p, need) (select_items sid d) /\
                In (sf_batch_id x, q, sf_cost_price x)
                   (select_batches p sd d))
           new.
Proof.
  intros H. destruct (recalc_db_inv _ _ _ H) as (sd & Hsd & -> & _).
  destruct (alloc_items_db_rows sd (select_items sid d)
              (delete_fifo_for_sale sid d)) as (_ & new & Hn & Hall).
  exists sd, new. repeat split; auto.
Qed.

Lemma select_items_ids (sid : Z) (d : db) (x p need : Z) :
  In (x, p, need) (select_items sid d) ->
  In x (map si_id (items_of_sale sid d)).
Proof.
  intros H. rewrite <- item_ids_select_items. unfold item_ids.
  apply in_map_iff. now exists (x, p, need).
Qed.

(* ================================================================= *)
(** ** Invariants of the single-sale recompute *)


(** C7. Every allocation row that a successful recompute leaves for a
    line of the recomputed sale references a batch of [invoice_items]
    whose parent invoice is dated on or before the sale's date. *)
Theorem recalc_rows_receipt_before_sale (sale_id : Z) (w w' : world) :
  recalc_fifo_for_sale sale_id w = (w', Ok tt) ->
  forall r, In r (sale_fifo (view w')) ->
    In (sf_sale_item_id r) (map si_id (items_of_sale sale_id (view w'))) ->
    exists B i sd,
      In B (invoice_items (view w')) /\ In i (invoices (view w')) /\
      ii_id B = sf_batch_id r /\ i_id i = ii_invoice_id B /\
      select_sale_date sale_id (view w') = Some sd /\
      text_leb (invoice_date i) sd = true.
Proof.
  intros Hrun r Hr Hline. apply recalc_run in Hrun.
  destruct Hrun as ((_ & Hi & Hii & Hs & Hsi) & _ & _ & Hdb & _).
  destruct (recalc_db_rows _ _ _ Hdb) as (sd & new & Hsd & Hn & Hall).
  unfold items_of_sale in Hline. rewrite Hsi in Hline.
  rewrite Hn in Hr. apply in_app_or in Hr. destruct Hr as [Hr | Hr].
  - simpl in Hr. apply filter_In in Hr. destruct Hr as [_ Hr].
    apply negb_true_iff in Hr. apply in_ids_In in Hline.
    unfold items_of_sale in Hr. congruence.
  - rewrite Forall_forall in Hall.
    destruct (Hall r Hr) as (p & need & q & _ & Hb).
    unfold select_batches in Hb. apply in_map_iff in Hb.
    destruct Hb as ([B i] & Hcols & Hel).
    apply eligible_batches_In in Hel. simpl in Hel.
    destruct Hel as (HB & Hin & Hid & _ & Hle).
    inversion Hcols. exists B, i, sd.
    rewrite Hii, Hi. unfold select_sale_date. rewrite Hs.
    repeat split; auto.
Qed.

(** C10. Whatever its outcome, a call of [recalc_fifo_for_sale] leaves
    the tables [products], [invoices], [invoice_items], [sales] and
    [sale_items] as they were. *)
Theorem recalc_writes_only_sale_fifo (sale_id : Z) (w : world) :
  let w' := fst (recalc_fifo_for_sale sale_id w) in
  products (view w') = products (view w) /\
  invoices (view w') = invoices (view w) /\
  invoice_items (view w') = invoice_items (view w) /\
  sales (view w') = sales (view w) /\
  sale_items (view w') = sale_items (view w).
Proof.
  destruct (recalc_fifo_for_sale sale_id w) as [w' o] eqn:Hrun. simpl.
  apply recalc_run in Hrun. apply Hrun.
Qed.



(* ================================================================= *)
(** ** Recomputing twice *)

Lemma row_data_filter_batch (b : Z) (l1 : list fifo_row) :
  forall l2,
    map row_data l1 = map row_data l2 ->
    SUM (map sf_qty (filter (fun r => sf_batch_id r =? b) l1))
    = SUM (map sf_qty (filter (fun r => sf_batch_id r =? b) l2)).
Proof.
  induction l1 as [|x l1 IH]; intros [|y l2] H; simpl in H;
    try discriminate; [reflexivity|].
  inversion H as [[H1 H2 H3 H4 H5]]. simpl. rewrite H2.
  destruct (sf_batch_id y =? b); simpl; rewrite ?H3; now rewrite (IH l2).
Qed.

Lemma row_data_filter_item (si : Z) (l1 : list fifo_row) :
  forall l2,
    map row_data l1 = map row_data l2 ->
    map row_data (filter (fun r => sf_sale_item_id r =? si) l1)
    = map row_data (filter (fun r => sf_sale_item_id r =? si) l2).
Proof.
  induction l1 as [|x l1 IH]; intros [|y l2] H; simpl in H;
    try discriminate; [reflexivity|].
  inversion H as [[H1 H2 H3 H4 H5]]. simpl. rewrite H1.
  destruct (sf_sale_item_id y =? si); simpl; rewrite ?(IH l2) by assumption;
    [|reflexivity].
  unfold row_data. now rewrite H1, H2, H3, H4.
Qed.

Lemma select_used_equiv (b : Z) (d e : db) :
  fifo_equiv d e -> select_used b d = select_used b e.
Proof. intros [_ H]. now apply row_data_filter_batch. Qed.

Lemma insert_fifo_equiv (si b take c : Z) (d e : db) :
  fifo_equiv d e ->
  fifo_equiv (insert_fifo si b take c d) (insert_fifo si b take c e).
Proof.
  intros [Hb H]. split.
  - eapply same_base_trans;
      [apply same_base_sym, insert_fifo_base|].
    eapply same_base_trans; [exact Hb | apply insert_fifo_base].
  - rewrite !sale_fifo_insert, !map_app, H. reflexivity.
Qed.

Lemma alloc_batches_db_equiv (si : Z) (bs : list (Z * Z * Z)) :
  forall (rem : Z) (d e : db),
    fifo_equiv d e ->
    fifo_equiv (fst (alloc_batches_db si rem bs d))
               (fst (alloc_batches_db si rem bs e)) /\
    snd (alloc_batches_db si rem bs d) = snd (alloc_batches_db si rem bs e).
Proof.
  induction bs as [|[[b q] c] rest IH]; intros rem d e Heq;
    cbn [alloc_batches_db]; [now split|].
  rewrite <- (select_used_equiv b d e Heq).
  destruct (q - select_used b d <=? 0); [now apply IH|].
  destruct (rem - Z.min (q - select_used b d) rem <=? 0).
  - split; [|reflexivity]. now apply insert_fifo_equiv.
  - apply IH. now apply insert_fifo_equiv.
Qed.

Lemma alloc_items_db_equiv (sd : text) (items : list (Z * Z * Z)) :
  forall d e : db,
    fifo_equiv d e ->
    fifo_equiv (alloc_items_db sd items d) (alloc_items_db sd items e).
Proof.
  induction items as [|[[si p] need] rest IH]; intros d e Heq;
    cbn [alloc_items_db]; [assumption|].
  apply IH.
  rewrite (select_batches_base p sd d e (proj1 Heq)).
  now apply alloc_batches_db_equiv.
Qed.

(** Deleting the rows of the sale after a recompute gives the rows
    that the recompute started from. *)
Lemma delete_after_recalc (sid : Z) (d d' : db) :
  recalc_db sid d = Some d' ->
  sale_fifo (delete_fifo_for_sale sid d')
  = sale_fifo (delete_fifo_for_sale sid d).
Proof.
  intros H. destruct (recalc_db_rows _ _ _ H) as (sd & new & _ & Hn & Hall).
  destruct (recalc_db_inv _ _ _ H) as (_ & _ & _ & (_ & _ & _ & _ & Hsi)).
  unfold delete_fifo_for_sale at 1. cbn [sale_fifo set_sale_fifo].
  unfold items_of_sale. rewrite Hsi, Hn, filter_app.
  fold (items_of_sale sid d).
  set (keep := fun r => negb (in_ids (sf_sale_item_id r)
                                     (map si_id (items_of_sale sid d)))).
  assert (H1 : filter keep (sale_fifo (delete_fifo_for_sale sid d))
               = sale_fifo (delete_fifo_for_sale sid d)).
  { apply forallb_filter_id. apply forallb_forall.
    intros r Hr. simpl in Hr. apply filter_In in Hr. apply Hr. }
  assert (H2 : filter keep new = []).
  { clear -Hall. induction Hall as [|x l (p & need & q & Hin & _) _ IH];
      simpl; [reflexivity|].
    unfold keep at 1. apply select_items_ids in Hin.
    apply in_ids_In in Hin. now rewrite Hin. }
  now rewrite H1, H2, app_nil_r.
Qed.

Lemma recalc_db_twice (sid : Z) (d d1 d2 : db) :
  recalc_db sid d = Some d1 -> recalc_db sid d1 = Some d2 ->
  fifo_equiv d2 d1.
Proof.
  intros H1 H2.
  pose proof (delete_after_recalc _ _ _ H1) as Hdel.
  destruct (recalc_db_inv _ _ _ H1) as (sd & Hsd & Heq1 & Hb1).
  destruct (recalc_db_inv _ _ _ H2) as (sd' & Hsd' & Heq2 & Hb2).
  pose proof Hb1 as (_ & _ & _ & Hs & Hsi).
  assert (sd' = sd).
  { unfold select_sale_date in *. rewrite Hs in Hsd'. congruence. }
  subst sd'.
  assert (Hitems : select_items sid d1 = select_items sid d)
    by (unfold select_items, items_of_sale; now rewrite Hsi).
  assert (E : fifo_equiv
                (alloc_items_db sd (select_items sid d)
                   (delete_fifo_for_sale sid d1))
                (alloc_items_db sd (select_items sid d)
                   (delete_fifo_for_sale sid d))).
  { apply alloc_items_db_equiv. split.
    - eapply same_base_trans;
        [apply same_base_sym, delete_fifo_base|].
      eapply same_base_trans; [apply same_base_sym; exact Hb1|].
      apply delete_fifo_base.
    - now rewrite Hdel. }
  rewrite <- Heq1 in E. rewrite Heq2, Hitems. exact E.
Qed.

(** C5. Idempotence. Two successful recomputes of the same sale in
    succession leave the same allocation rows: the table holds the same
    rows in the same order, rowids apart, and so does every sale
    line. *)
Theorem recalc_idempotent (sale_id : Z) (w w1 w2 : world) :
  recalc_fifo_for_sale sale_id w = (w1, Ok tt) ->
  recalc_fifo_for_sale sale_id w1 = (w2, Ok tt) ->
  map row_data (sale_fifo (view w2)) = map row_data (sale_fifo (view w1)) /\
  forall si,
    map row_data (rows_of_item si (view w2))
    = map row_data (rows_of_item si (view w1)).
Proof.
  intros H1 H2. apply recalc_run in H1, H2.
  destruct H1 as (_ & _ & _ & Hdb1 & _), H2 as (_ & _ & _ & Hdb2 & _).
  destruct (recalc_db_twice _ _ _ _ Hdb1 Hdb2) as [_ Heq].
  split; [assumption|].
  intros si. now apply row_data_filter_item.
Qed.

(* ================================================================= *)
(** ** Failure and the committed tables *)

(** C4, as the code has it. The recompute is two units of work: the
    deletion of the sale's rows is committed on its own, the new rows
    are committed together at the end. After a call that raised, the
    committed tables are either the ones committed before the call, or
    the connection's tables at the call with the rows of the sale
    deleted and no new row; after a call that returned they are the
    complete result of the recompute. *)
Theorem recalc_commits_delete_first (sale_id : Z) (w : world) :
  match recalc_fifo_for_sale sale_id w with
  | (w', Ok _) =>
      durable w' = view w' /\ recalc_db sale_id (view w) = Some (view w')
  | (w', Raised _) =>
      durable w' = durable w \/
      durable w' = delete_fifo_for_sale sale_id (view w)
  end.
Proof.
  destruct (recalc_fifo_for_sale sale_id w) as [w' [[]|e]] eqn:Hrun;
    apply recalc_run in Hrun; destruct Hrun as (_ & _ & _ & H).
  - tauto.
  - apply H.
Qed.

(* ================================================================= *)
(** ** Negative quantities *)

Lemma alloc_batches_total (si rem : Z) (bs : list (Z * Z * Z)) (w : world) :
  schedule w = [] ->
  exists w',
    alloc_batches si rem bs w
    = (w', Ok (snd (alloc_batches_db si rem bs (view w)))) /\
    view w' = fst (alloc_batches_db si rem bs (view w)) /\
    durable w' = durable w /\ schedule w' = [].
Proof.
  intros Hs. destruct (alloc_batches si rem bs w) as [w' o] eqn:Hrun.
  pose proof (alloc_batches_run _ _ _ _ _ _ Hrun)
    as ((_ & Hd & _ & Hsched) & Ho).
  destruct o as [r|e]; [|contradiction].
  exists w'. rewrite Ho. simpl. auto.
Qed.

(** C6, as the code has it. A sale line with a strictly negative
    requested quantity raises nothing: on a storage that does not fail
    the pass over its batches returns, having inserted one row that
    carries the whole negative quantity against the first batch that
    still has capacity (the demand left is then 0), or no row when no
    batch has capacity (the demand left is the negative quantity). *)
Theorem alloc_negative_quantity (si need : Z) (bs : list (Z * Z * Z))
  (w : world) :
  need < 0 ->
  schedule w = [] ->
  exists w',
    alloc_batches si need bs w
    = (w', Ok (match first_available bs (view w) with
               | Some _ => 0
               | None => need
               end)) /\
    view w' = match first_available bs (view w) with
              | Some x => insert_fifo si (fst (fst x)) need (snd x) (view w)
              | None => view w
              end.
Proof.
  intros Hneg Hs.
  destruct (alloc_batches_total si need bs w Hs) as (w' & Hrun & Hv & _).
  exists w'. rewrite Hrun, Hv.
  rewrite (alloc_batches_db_negative si bs need (view w) Hneg).
  destruct (first_available bs (view w)); auto.
Qed.

(* ================================================================= *)
(** ** The mass recompute *)



(* ================================================================= *)
(** ** The pre-insert guard *)

Section Guard.

Variable DATE : text -> option text.




Lemma query_quiet {A} (q : db -> A) (w : world) :
  schedule w = [] -> query q w = (w, Ok (q (view w))).
Proof. intros H. unfold query, bind, statement. now rewrite H. Qed.

Lemma execute_quiet (f : db -> db) (w : world) :
  schedule w = [] ->
  execute f w = (mkWorld (f (view w)) (durable w) [] (log w), Ok tt).
Proof.
  intros H. unfold execute, bind, statement. rewrite H. now rewrite H.
Qed.

Lemma commit_quiet (w : world) :
  schedule w = [] ->
  commit w = (mkWorld (view w) (view w) [] (log w), Ok tt).
Proof.
  intros H. unfold commit, bind, statement. rewrite H. now rewrite H.
Qed.



End Guard.

(* ================================================================= *)
(** ** The code run on the ledger *)

Example test_fifo_rows :
  map row_data
    (sale_fifo (view (fst (recalc_fifo_for_sale 1 (connect test_fifo_db [])))))
  = [(1, 1, 3, 5)].
Proof. reflexivity. Qed.

Example test_fifo_remaining_capacity :
  10 - select_used 1
         (view (fst (recalc_fifo_for_sale 1 (connect test_fifo_db [])))) = 7.
Proof. reflexivity. Qed.

Example ledger_rows_of_sale_1 :
  map row_data
    (rows_of_item 1
       (view (fst (recalc_fifo_for_sale 1 (connect (ledger 8) [])))))
  = [(1, 2, 4, 4); (1, 1, 4, 6)].
Proof. reflexivity. Qed.

Example ledger_shortfall :
  allocated 1 (view (fst (recalc_fifo_for_sale 1 (connect (ledger 12) []))))
  = 9.
Proof. reflexivity. Qed.



(* ================================================================= *)
(** ** The theorems at work on the ledger *)

Lemma recomputed_run (need : Z) :
  snd (recalc_fifo_for_sale 1 (connect (ledger need) [])) = Ok tt ->
  recalc_fifo_for_sale 1 (connect (ledger need) [])
  = (recomputed need, Ok tt).
Proof.
  unfold recomputed.
  destruct (recalc_fifo_for_sale 1 (connect (ledger need) [])) as [w' o].
  simpl. now intros ->.
Qed.




Lemma recalc_idempotent_witness :
  map row_data
    (sale_fifo (view (fst (recalc_fifo_for_sale 1 (recomputed 8)))))
  = map row_data (sale_fifo (view (recomputed 8))).
Proof.
  assert (H1 : recalc_fifo_for_sale 1 (connect (ledger 8) [])
               = (recomputed 8, Ok tt))
    by (apply recomputed_run; vm_compute; reflexivity).
  assert (H2 : recalc_fifo_for_sale 1 (recomputed 8)
               = (fst (recalc_fifo_for_sale 1 (recomputed 8)), Ok tt))
    by (vm_compute; reflexivity).
  exact (proj1 (recalc_idempotent 1 _ _ _ H1 H2)).
Defined.

Lemma recalc_rows_receipt_before_sale_witness :
  exists B i sd,
    In B (invoice_items (view (recomputed 8))) /\
    In i (invoices (view (recomputed 8))) /\
    ii_id B = sf_batch_id (mkFifo 4 1 1 4 6) /\
    i_id i = ii_invoice_id B /\
    select_sale_date 1 (view (recomputed 8)) = Some sd /\
    text_leb (invoice_date i) sd = true.
Proof.
  assert (Hrun : recalc_fifo_for_sale 1 (connect (ledger 8) [])
                 = (recomputed 8, Ok tt))
    by (apply recomputed_run; vm_compute; reflexivity).
  assert (Hrow : In (mkFifo 4 1 1 4 6) (sale_fifo (view (recomputed 8))))
    by (vm_compute; right; right; left; reflexivity).
  assert (Hline : In (sf_sale_item_id (mkFifo 4 1 1 4 6))
                     (map si_id (items_of_sale 1 (view (recomputed 8)))))
    by (vm_compute; left; reflexivity).
  exact (recalc_rows_receipt_before_sale 1 _ _ Hrun _ Hrow Hline).
Defined.

Lemma alloc_negative_quantity_witness :
  exists w',
    alloc_batches 1 (-3) [(2, 5, 4); (1, 5, 6)]
      (connect (delete_fifo_for_sale 1 (ledger (-3))) [])
    = (w', Ok 0) /\
    map row_data (sale_fifo (view w')) = [(2, 2, 1, 4); (1, 2, -3, 4)].
Proof.
  destruct (alloc_negative_quantity 1 (-3) [(2, 5, 4); (1, 5, 6)]
              (connect (delete_fifo_for_sale 1 (ledger (-3))) [])
              eq_refl eq_refl) as (w' & Hrun & Hview).
  exists w'. split; [exact Hrun|]. rewrite Hview. reflexivity.
Defined.



(* ================================================================= *)
(** ** Where the code and the specification part *)


(** C4. A recompute of sale 1 interrupted after its first INSERT: the
    committed rows of the sale are neither the old set nor the new one
    (they are gone), and the connection sees one row of the two. The
    next commit on the connection, here that of a recompute of sale 2,
    commits that one row. *)
Lemma recalc_interrupted_not_atomic :
  snd (recalc_fifo_for_sale 1 interrupted) = Raised OperationalError /\
  map row_data (rows_of_item 1 (durable interrupted)) = [(1, 1, 2, 6)] /\
  option_map (fun d => map row_data (rows_of_item 1 d))
             (recalc_db 1 (view interrupted))
  = Some [(1, 2, 4, 4); (1, 1, 4, 6)] /\
  map row_data
    (rows_of_item 1 (durable (fst (recalc_fifo_for_sale 1 interrupted))))
  = [] /\
  map row_data
    (rows_of_item 1 (view (fst (recalc_fifo_for_sale 1 interrupted))))
  = [(1, 2, 4, 4)] /\
  map row_data
    (rows_of_item 1
       (durable (fst (recalc_fifo_for_sale 2
                        (fst (recalc_fifo_for_sale 1 interrupted))))))
  = [(1, 2, 4, 4)].
Proof. repeat split; vm_compute; reflexivity. Qed.

(** C6. A line of -3 units: the recompute returns, and the line holds
    a row of -3 units drawn from batch 2. *)
Lemma recalc_allocates_negative_quantity :
  snd (recalc_fifo_for_sale 1 (connect (ledger (-3)) [])) = Ok tt /\
  map row_data
    (rows_of_item 1
       (view (fst (recalc_fifo_for_sale 1 (connect (ledger (-3)) [])))))
  = [(1, 2, -3, 4)].
Proof. split; vm_compute; reflexivity. Qed.


(* ================================================================= *)
(** ** How much of a demand one pass covers *)

Lemma join_invoices_ids (d : db) (y : Z) :
  In y (map (fun x => ii_id (fst x)) (join_invoices d)) ->
  In y (map ii_id (invoice_items d)).
Proof.
  intros H. apply in_map_iff in H. destruct H as (x & <- & Hx).
  apply join_invoices_In in Hx. apply in_map. apply Hx.
Qed.







(* ================================================================= *)
(** ** Edges of the single-sale recompute *)

Lemma bind_ok {A B} (m : M A) (k : A -> M B) (w w1 : world) (a : A) :
  m w = (w1, Ok a) -> bind m k w = k a w1.
Proof. unfold bind. now intros ->. Qed.

Lemma bind_raised {A B} (m : M A) (k : A -> M B) (w w1 : world) (e : exn) :
  m w = (w1, Raised e) -> bind m k w = (w1, Raised e).
Proof. unfold bind. now intros ->. Qed.


Lemma alloc_batches_db_none (si : Z) (bs : list (Z * Z * Z)) :
  forall (need : Z) (d : db),
    first_available bs d = None ->
    alloc_batches_db si need bs d = (d, need).
Proof.
  unfold first_available.
  induction bs as [|[[b q] c] rest IH]; intros need d Hx;
    cbn [alloc_batches_db find fst snd] in *; [reflexivity|].
  destruct (0 <? q - select_used b d) eqn:Hav; [discriminate|].
  apply Z.ltb_ge in Hav.
  assert (E : (q - select_used b d <=? 0) = true)
    by (apply Z.leb_le; lia).
  rewrite E. now apply IH.
Qed.


(** X3. When no batch of the list has capacity left, the loop inserts
    nothing and leaves the whole demand, whatever the demand is. *)
Theorem alloc_no_capacity (si need : Z) (bs : list (Z * Z * Z))
  (w : world) :
  schedule w = [] ->
  first_available bs (view w) = None ->
  exists w',
    alloc_batches si need bs w = (w', Ok need) /\ view w' = view w.
Proof.
  intros Hs Hx.
  destruct (alloc_batches_total si need bs w Hs) as (w' & Hrun & Hv & _).
  rewrite (alloc_batches_db_none si bs need (view w) Hx) in Hrun, Hv.
  exists w'. auto.
Qed.

(** X4. Every allocation row that a successful recompute leaves for a
    line of the recomputed sale names a batch of the line's product
    and carries that batch's current price as its cost. *)
Theorem recalc_rows_cost_snapshot (sale_id : Z) (w w' : world) :
  recalc_fifo_for_sale sale_id w = (w', Ok tt) ->
  forall r, In r (sale_fifo (view w')) ->
    In (sf_sale_item_id r) (map si_id (items_of_sale sale_id (view w'))) ->
    exists L B,
      In L (items_of_sale sale_id (view w')) /\
      In B (invoice_items (view w')) /\
      si_id L = sf_sale_item_id r /\
      ii_id B = sf_batch_id r /\
      ii_product_id B = si_product_id L /\
      sf_cost_price r = ii_price B.
Proof.
  intros Hrun r Hr Hline. apply recalc_run in Hrun.
  destruct Hrun as ((_ & Hi & Hii & Hs & Hsi) & _ & _ & Hdb & _).
  destruct (recalc_db_rows _ _ _ Hdb) as (sd & new & Hsd & Hn & Hall).
  unfold items_of_sale in *. rewrite Hsi in *.
  rewrite Hn in Hr. apply in_app_or in Hr. destruct Hr as [Hr | Hr].
  - simpl in Hr. apply filter_In in Hr. destruct Hr as [_ Hr].
    apply negb_true_iff in Hr. apply in_ids_In in Hline.
    unfold items_of_sale in Hr. congruence.
  - rewrite Forall_forall in Hall.
    destruct (Hall r Hr) as (p & need & q & Hit & Hb).
    unfold select_items in Hit. apply in_map_iff in Hit.
    destruct Hit as (L & HL & HLin). inversion HL; subst.
    unfold select_batches in Hb. apply in_map_iff in Hb.
    destruct Hb as ([B i] & Hcols & Hel).
    apply eligible_batches_In in Hel.
    destruct Hel as (HB & _ & _ & Hp & _). simpl in *.
    inversion Hcols. exists L, B. rewrite Hii.
    repeat split; auto.
Qed.




Lemma recalc_no_sale_row (sale_id : Z) (w : world) :
  schedule w = [] ->
  select_sale_date sale_id (view w) = None ->
  exists w',
    recalc_fifo_for_sale sale_id w = (w', Raised TypeError) /\
    view w' = delete_fifo_for_sale sale_id (view w) /\
    durable w' = delete_fifo_for_sale sale_id (view w).
Proof.
  intros Hs Hnone. unfold recalc_fifo_for_sale.
  erewrite bind_ok by (unfold logger; reflexivity).
  erewrite bind_ok by (apply execute_quiet; exact Hs).
  erewrite bind_ok by (apply commit_quiet; reflexivity).
  erewrite bind_ok by (apply query_quiet; reflexivity).
  erewrite bind_ok by (apply query_quiet; reflexivity).
  cbn [view durable schedule log].
  change (select_sale_date sale_id (delete_fifo_for_sale sale_id (view w)))
    with (select_sale_date sale_id (view w)).
  rewrite Hnone. cbn [subscript0].
  eexists. split; [reflexivity|]. split; reflexivity.
Qed.


(* ================================================================= *)
(** ** The function under test and the function of the application *)

Lemma sim_ret {A} (a : A) : sim (ret a) (ret a).
Proof. intros w v H. now split. Qed.

Lemma sim_bind {A B} (m m' : M A) (k k' : A -> M B) :
  sim m m' -> (forall a, sim (k a) (k' a)) -> sim (bind m k) (bind m' k').
Proof.
  intros Hm Hk w v H. unfold bind. specialize (Hm w v H).
  destruct (m w) as [w1 o1], (m' v) as [v1 o2]. simpl in Hm.
  destruct Hm as [Hc <-]. destruct o1 as [a|e]; [now apply Hk | now split].
Qed.

Lemma sim_statement : sim statement statement.
Proof.
  intros w v (Hv & Hd & Hs). unfold statement. rewrite Hs.
  destruct (schedule v) as [|[|] s] eqn:E; simpl; repeat split;
    auto; congruence.
Qed.

Lemma sim_query {A} (q : db -> A) : sim (query q) (query q).
Proof.
  unfold query. apply sim_bind; [apply sim_statement|].
  intros _ w v (Hv & Hd & Hs). simpl. rewrite Hv. repeat split; auto.
Qed.

Lemma sim_execute (f : db -> db) : sim (execute f) (execute f).
Proof.
  unfold execute. apply sim_bind; [apply sim_statement|].
  intros _ w v (Hv & Hd & Hs). simpl. rewrite Hv. repeat split; auto.
Qed.

Lemma sim_commit : sim commit commit.
Proof.
  unfold commit. apply sim_bind; [apply sim_statement|].
  intros _ w v (Hv & Hd & Hs). simpl. repeat split; auto.
Qed.

Lemma sim_logged {A} (e : event) (m m' : M A) :
  sim m m' -> sim (bind (logger e) (fun _ => m)) m'.
Proof.
  intros Hm w v (Hv & Hd & Hs). unfold bind, logger.
  apply Hm. repeat split; assumption.
Qed.

Lemma sim_then_logged (e : event) (m m' : M unit) :
  sim m m' -> sim (bind m (fun _ => logger e)) m'.
Proof.
  intros Hm w v H. unfold bind. specialize (Hm w v H).
  destruct (m w) as [w1 [[]|x]], (m' v) as [v1 o2]; simpl in *;
    destruct Hm as [(Hv & Hd & Hs) <-]; repeat split; auto.
Qed.

Lemma sim_alloc_batches (si : Z) (bs : list (Z * Z * Z)) :
  forall rem, sim (alloc_batches si rem bs) (test_alloc_batches si rem bs).
Proof.
  induction bs as [|[[b q] c] rest IH]; intros rem;
    cbn [alloc_batches test_alloc_batches]; [apply sim_ret|].
  apply sim_bind; [apply sim_query|]. intros used.
  destruct (q - used <=? 0); [apply IH|].
  apply sim_bind; [apply sim_execute|]. intros _.
  apply sim_logged.
  destruct (rem - Z.min (q - used) rem <=? 0); [apply sim_ret | apply IH].
Qed.

Lemma sim_alloc_items (sd : text) (items : list (Z * Z * Z)) :
  sim (alloc_items sd items) (test_alloc_items sd items).
Proof.
  induction items as [|[[si p] need] rest IH];
    cbn [alloc_items test_alloc_items]; [apply sim_ret|].
  apply sim_logged.
  apply sim_bind; [apply sim_query|]. intros batches.
  apply sim_bind; [apply sim_alloc_batches|]. intros _. exact IH.
Qed.

(** X7. The [recalc_fifo_for_sale] that [test_fifo.py] defines and
    runs and the one of the application do the same to the connection:
    same tables seen, same tables committed, same outcome, on every
    connection and whatever the storage does; only the log differs. *)
Theorem test_copy_agrees (sale_id : Z) (w : world) :
  view (fst (recalc_fifo_for_sale sale_id w))
  = view (fst (test_recalc_fifo_for_sale sale_id w)) /\
  durable (fst (recalc_fifo_for_sale sale_id w))
  = durable (fst (test_recalc_fifo_for_sale sale_id w)) /\
  snd (recalc_fifo_for_sale sale_id w)
  = snd (test_recalc_fifo_for_sale sale_id w).
Proof.
  assert (H : sim (recalc_fifo_for_sale sale_id)
                  (test_recalc_fifo_for_sale sale_id)).
  { unfold recalc_fifo_for_sale, test_recalc_fifo_for_sale.
    apply sim_logged.
    apply sim_bind; [apply sim_execute|]. intros _.
    apply sim_bind; [apply sim_commit|]. intros _.
    apply sim_bind; [apply sim_query|]. intros items.
    apply sim_bind; [apply sim_query|]. intros row.
    apply sim_bind.
    { destruct row; [apply sim_ret | intros ? ? ?; now split]. }
    intros sd.
    apply sim_bind; [apply sim_alloc_items|]. intros _.
    apply sim_then_logged. apply sim_commit. }
  destruct (H w w) as [(Hv & Hd & _) Ho]; [repeat split|].
  auto.
Qed.

(* ================================================================= *)
(** ** Runs on a storage that does not fail *)

Lemma recalc_db_exists (sid : Z) (d : db) (sd : text) :
  select_sale_date sid d = Some sd -> exists d', recalc_db sid d = Some d'.
Proof.
  intros H. unfold recalc_db.
  change (select_sale_date sid (delete_fifo_for_sale sid d))
    with (select_sale_date sid d).
  rewrite H. eauto.
Qed.

Lemma recalc_quiet (sid : Z) (w : world) (sd : text) :
  schedule w = [] ->
  select_sale_date sid (view w) = Some sd ->
  exists w',
    recalc_fifo_for_sale sid w = (w', Ok tt) /\
    recalc_db sid (view w) = Some (view w') /\
    durable w' = view w' /\ schedule w' = [].
Proof.
  intros Hs Hsd.
  destruct (recalc_fifo_for_sale sid w) as [w' [[]|e]] eqn:Hrun;
    apply recalc_run in Hrun; destruct Hrun as (_ & _ & Hs' & Ho).
  - exists w'. destruct Ho. auto.
  - exfalso. destruct Ho as [_ Hnone]. destruct (Hnone Hs) as [Hnone' _].
    destruct (recalc_db_exists sid (view w) sd Hsd). congruence.
Qed.





Section StockFacts.

Variable DATE : text -> option text.



End StockFacts.

(* ================================================================= *)
(** ** Adding lines to a sale *)





Section GuardFacts.

Variable DATE : text -> option text.






End GuardFacts.

(* ================================================================= *)
(** ** A recompute that fails inside [add_sale_item] *)

Lemma statement_clear (n : nat) (w : world) :
  clear_for (S n) w ->
  exists w1,
    statement w = (w1, Ok tt) /\
    view w1 = view w /\ durable w1 = durable w /\ clear_for n w1.
Proof.
  unfold clear_for, statement. destruct (schedule w) as [|[|] s] eqn:E;
    simpl; intros H.
  - exists w. rewrite E. repeat split. now destruct n.
  - discriminate.
  - eexists. split; [reflexivity|]. simpl. auto.
Qed.

Lemma execute_clear (n : nat) (f : db -> db) (w : world) :
  clear_for (S n) w ->
  exists w1,
    execute f w = (w1, Ok tt) /\
    view w1 = f (view w) /\ durable w1 = durable w /\ clear_for n w1.
Proof.
  intros H. destruct (statement_clear n w H) as (w0 & Hst & Hv & Hd & Hc).
  unfold execute. erewrite bind_ok by exact Hst.
  eexists. split; [reflexivity|]. simpl. rewrite Hv. auto.
Qed.

Lemma commit_clear (n : nat) (w : world) :
  clear_for (S n) w ->
  exists w1,
    commit w = (w1, Ok tt) /\
    view w1 = view w /\ durable w1 = view w /\ clear_for n w1.
Proof.
  intros H. destruct (statement_clear n w H) as (w0 & Hst & Hv & Hd & Hc).
  unfold commit. erewrite bind_ok by exact Hst.
  eexists. split; [reflexivity|]. simpl. rewrite Hv. auto.
Qed.

(** X11. [add_sale_item] hides a failed recompute from its caller:
    once its INSERT and its commit have gone through, it returns
    normally whatever happens in [recalc_fifo_for_sale] (storage error
    or missing sale), and the new line is in the committed tables. *)
Theorem add_sale_item_swallows_recompute_failure
  (sid p qty price : Z) (w : world) :
  clear_for 2 w ->
  exists w',
    add_sale_item sid p qty price w = (w', Ok tt) /\
    sale_items (view w')
    = sale_items (view w) ++
      [mkSaleItem (next_rowid (seq_sale_items (view w))
                              (map si_id (sale_items (view w))))
                  sid p qty price (qty * price)] /\
    sale_items (durable w') = sale_items (view w').
Proof.
  intros Hc. unfold add_sale_item.
  destruct (execute_clear 1
              (insert_sale_item sid p qty price (qty * price)) w Hc)
    as (w1 & Hx & Hv1 & _ & Hc1).
  erewrite bind_ok by exact Hx.
  destruct (commit_clear 0 w1 Hc1) as (w2 & Hcm & Hv2 & Hd2 & _).
  erewrite bind_ok by exact Hcm.
  unfold try_except.
  destruct (recalc_fifo_for_sale sid w2) as [w' o] eqn:Hrun.
  apply recalc_run in Hrun.
  destruct Hrun as ((_ & _ & _ & _ & Hsi) & _ & _ & Ho).
  assert (Hitems : sale_items (view w')
                   = sale_items (view w) ++
                     [mkSaleItem (next_rowid (seq_sale_items (view w))
                                    (map si_id (sale_items (view w))))
                                 sid p qty price (qty * price)])
    by (rewrite Hsi, Hv2, Hv1; reflexivity).
  destruct o as [[]|e].
  - exists w'. split; [reflexivity|]. split; [exact Hitems|].
    destruct Ho as [_ Hd]. now rewrite Hd.
  - exists w'. split; [reflexivity|]. split; [exact Hitems|].
    rewrite Hitems. destruct Ho as [[Hd | Hd] _]; rewrite Hd.
    + rewrite Hd2, Hv1. reflexivity.
    + rewrite Hv2, Hv1. reflexivity.
Qed.

(* ================================================================= *)
(** ** Deleting and updating lines, sales and batches *)

Lemma try_except_ok {A} (m : M A) (h : exn -> M A) (w w1 : world) (a : A) :
  m w = (w1, Ok a) -> try_except m h w = (w1, Ok a).
Proof. unfold try_except. now intros ->. Qed.

Lemma filter_filter_implied {A} (f g : A -> bool) (l : list A) :
  (forall x, f x = true -> g x = true) ->
  filter f (filter g l) = filter f l.
Proof.
  intros H. induction l as [|x l IH]; simpl; [reflexivity|].
  destruct (g x) eqn:Hg; simpl; rewrite IH; [reflexivity|].
  destruct (f x) eqn:Hf; [|reflexivity].
  apply H in Hf. congruence.
Qed.

Lemma filter_filter_excluded {A} (f g : A -> bool) (l : list A) :
  (forall x, f x = true -> g x = false) ->
  filter f (filter g l) = [].
Proof.
  intros H. induction l as [|x l IH]; simpl; [reflexivity|].
  destruct (g x) eqn:Hg; simpl; rewrite ?IH; [|reflexivity].
  destruct (f x) eqn:Hf; [|reflexivity].
  apply H in Hf. congruence.
Qed.

Lemma delete_fifo_keeps_rows (s x : Z) (d : db) :
  ~ In x (map si_id (items_of_sale s d)) ->
  rows_of_item x (delete_fifo_for_sale s d) = rows_of_item x d.
Proof.
  intros Hn. unfold rows_of_item, delete_fifo_for_sale. simpl.
  apply filter_filter_implied. intros r Hr. apply Z.eqb_eq in Hr.
  rewrite Hr. apply negb_true_iff.
  destruct (in_ids x (map si_id (items_of_sale s d))) eqn:E;
    [|reflexivity].
  apply in_ids_In in E. contradiction.
Qed.

Lemma recalc_db_keeps_rows (s x : Z) (d d' : db) :
  recalc_db s d = Some d' ->
  ~ In x (map si_id (items_of_sale s d)) ->
  rows_of_item x d' = rows_of_item x d.
Proof.
  intros H Hn.
  destruct (recalc_db_rows _ _ _ H) as (sd & new & _ & Hnew & Hall).
  rewrite (rows_of_item_app x _ _ _ Hnew).
  rewrite (filter_item_none x new), app_nil_r.
  - now apply delete_fifo_keeps_rows.
  - eapply Forall_impl; [|exact Hall]. simpl.
    intros r (p & need & q & Hin & _) Heq. apply Hn.
    rewrite <- Heq. eapply select_items_ids; eassumption.
Qed.

(** X12. [delete_sale_item] removes the line and leaves its
    allocation rows in [sale_fifo]: the recompute that follows deletes
    only the rows of the lines the sale still has. *)
Theorem delete_sale_item_leaves_rows (item_id : Z) (w : world) :
  schedule w = [] ->
  exists w',
    delete_sale_item item_id w = (w', Ok tt) /\
    (forall it, In it (sale_items (view w')) -> si_id it <> item_id) /\
    rows_of_item item_id (view w') = rows_of_item item_id (view w).
Proof.
  intros Hs. unfold delete_sale_item.
  erewrite bind_ok
    by (apply try_except_ok; apply query_quiet; exact Hs).
  erewrite bind_ok by (apply execute_quiet; exact Hs).
  erewrite bind_ok by (apply commit_quiet; reflexivity).
  cbn [view durable schedule log].
  set (d1 := delete_item_row item_id (view w)).
  set (w2 := mkWorld d1 d1 [] (log w)).
  assert (Hgone : forall it, In it (sale_items d1) -> si_id it <> item_id).
  { intros it Hin Heq. unfold d1 in Hin. simpl in Hin.
    apply filter_In in Hin. destruct Hin as [_ Hin].
    apply negb_true_iff, Z.eqb_neq in Hin. contradiction. }
  assert (Hnot : forall s, ~ In item_id (map si_id (items_of_sale s d1))).
  { intros s Hin. apply in_map_iff in Hin. destruct Hin as (it & Hid & Hin).
    apply filter_In in Hin. exact (Hgone it (proj1 Hin) Hid). }
  unfold try_except.
  destruct (select_item_sale item_id (view w)) as [s|].
  - destruct (select_sale_date s d1) as [sd|] eqn:Hsd.
    + destruct (recalc_quiet s w2 sd eq_refl Hsd)
        as (w' & Hrun & Hdb & _ & _).
      rewrite Hrun. exists w'. split; [reflexivity|].
      destruct (recalc_db_inv _ _ _ Hdb) as (_ & _ & _ & Hb).
      split.
      * intros it Hin. apply Hgone.
        destruct Hb as (_ & _ & _ & _ & Hsi). rewrite Hsi in Hin.
        exact Hin.
      * rewrite (recalc_db_keeps_rows s item_id _ _ Hdb (Hnot s)).
        reflexivity.
    + destruct (recalc_no_sale_row s w2 eq_refl Hsd)
        as (w' & Hrun & Hv & _).
      rewrite Hrun. cbn [ret]. exists w'. split; [reflexivity|].
      rewrite Hv. split.
      * intros it Hin. now apply Hgone.
      * exact (delete_fifo_keeps_rows s item_id d1 (Hnot s)).
  - cbn [ret]. exists w2. split; [reflexivity|]. split; [exact Hgone|].
    reflexivity.
Qed.

(** X13. [delete_sale] on a storage that does not fail: the sale, its
    lines and the allocation rows of its lines are gone and the
    deletion is committed; the allocation rows of every other line are
    as they were, and so are the other sales. *)
Theorem delete_sale_removes (sale_id : Z) (w : world) :
  schedule w = [] ->
  exists w',
    delete_sale sale_id w = (w', Ok tt) /\
    durable w' = view w' /\
    select_sale_date sale_id (view w') = None /\
    items_of_sale sale_id (view w') = [] /\
    (forall x, In x (map si_id (items_of_sale sale_id (view w))) ->
               rows_of_item x (view w') = []) /\
    (forall x, ~ In x (map si_id (items_of_sale sale_id (view w))) ->
               rows_of_item x (view w') = rows_of_item x (view w)) /\
    (forall s, In s (sales (view w)) -> s_id s <> sale_id ->
               In s (sales (view w'))).
Proof.
  intros Hs. unfold delete_sale.
  erewrite bind_ok
    by (apply try_except_ok; apply execute_quiet; exact Hs).
  erewrite bind_ok by (apply execute_quiet; reflexivity).
  erewrite bind_ok by (apply execute_quiet; reflexivity).
  rewrite commit_quiet by reflexivity.
  eexists. split; [reflexivity|]. cbn [view durable schedule log].
  split; [reflexivity|]. split; [|split; [|split; [|split]]].
  - unfold select_sale_date. simpl.
    rewrite filter_filter_excluded; [reflexivity|].
    intros s H. now rewrite H.
  - unfold items_of_sale. simpl.
    apply filter_filter_excluded. intros it H. now rewrite H.
  - intros x Hx.
    exact (rows_of_item_deleted sale_id x (view w) Hx).
  - intros x Hx.
    exact (delete_fifo_keeps_rows sale_id x (view w) Hx).
  - intros s Hin Hne. simpl. apply filter_In. split; [assumption|].
    apply negb_true_iff. now apply Z.eqb_neq.
Qed.

(** X14. [delete_sale] commits once, at its end: when it raises, the
    committed tables are the ones committed before the call; when it
    returns, they are the connection's tables. *)
Theorem delete_sale_commits_once (sale_id : Z) (w : world) :
  match delete_sale sale_id w with
  | (w', Ok _) => durable w' = view w'
  | (w', Raised _) => durable w' = durable w
  end.
Proof.
  destruct (delete_sale sale_id w) as [w' o] eqn:Hrun.
  unfold delete_sale in Hrun.
  apply bind_inv in Hrun.
  assert (Hfirst : forall w1 o1,
            try_except (execute (delete_fifo_for_sale sale_id))
                       (fun _ => ret tt) w = (w1, o1) ->
            o1 = Ok tt /\ durable w1 = durable w).
  { intros w1 o1 H. unfold try_except in H.
    destruct (execute (delete_fifo_for_sale sale_id) w) as [w0 [[]|e]] eqn:Hx;
      apply execute_inv in Hx; destruct Hx as (Hd & _);
      inversion H; subst; auto. }
  destruct Hrun as [(w1 & [] & H1 & Hrun) | (e & H1 & ->)].
  2:{ apply Hfirst in H1. destruct H1; discriminate. }
  apply Hfirst in H1. destruct H1 as [_ Hd1].
  apply bind_inv in Hrun.
  destruct Hrun as [(w2 & [] & H2 & Hrun) | (e & H2 & ->)].
  2:{ apply execute_inv in H2. destruct H2 as (Hd & _). congruence. }
  apply execute_inv in H2. destruct H2 as (Hd2 & _).
  apply bind_inv in Hrun.
  destruct Hrun as [(w3 & [] & H3 & Hrun) | (e & H3 & ->)].
  2:{ apply execute_inv in H3. destruct H3 as (Hd & _). congruence. }
  apply execute_inv in H3. destruct H3 as (Hd3 & _).
  apply commit_inv in Hrun. destruct Hrun as (Hv & _ & _ & Ho).
  destruct o as [[]|e]; [congruence|].
  destruct Ho as [Hd _]. congruence.
Qed.





Lemma set_sale_items_same (d : db) :
  set_sale_items d (sale_items d) (seq_sale_items d) = d.
Proof. now destruct d. Qed.

(** X16. An item id that no line carries: on a storage that does not
    fail, [update_sale_item] and [delete_sale_item] return normally
    and leave the connection's tables as they were. *)
Theorem update_delete_absent_item (item_id qty price : Z) (w : world) :
  schedule w = [] ->
  (forall it, In it (sale_items (view w)) -> si_id it <> item_id) ->
  (exists w', update_sale_item item_id qty price w = (w', Ok tt) /\
              view w' = view w) /\
  (exists w', delete_sale_item item_id w = (w', Ok tt) /\
              view w' = view w).
Proof.
  intros Hs Habs.
  assert (Hsel : select_item_sale item_id (view w) = None).
  { unfold select_item_sale.
    destruct (filter (fun it => si_id it =? item_id) (sale_items (view w)))
      as [|it l] eqn:E; [reflexivity|].
    exfalso. assert (Hin : In it (it :: l)) by now left.
    rewrite <- E in Hin. apply filter_In in Hin. destruct Hin as [Hin He].
    apply Z.eqb_eq in He. exact (Habs it Hin He). }
  assert (Hupd : update_item_row item_id qty price (qty * price) (view w)
                 = view w).
  { unfold update_item_row.
    rewrite (map_ext_in _ (fun it => it)), map_id.
    - apply set_sale_items_same.
    - intros it Hin. apply Habs in Hin. apply Z.eqb_neq in Hin.
      now rewrite Hin. }
  assert (Hdel : delete_item_row item_id (view w) = view w).
  { unfold delete_item_row. rewrite forallb_filter_id.
    - apply set_sale_items_same.
    - apply forallb_forall. intros it Hin. apply Habs in Hin.
      apply negb_true_iff. now apply Z.eqb_neq. }
  split.
  - unfold update_sale_item.
    erewrite bind_ok by (apply execute_quiet; exact Hs).
    erewrite bind_ok by (apply commit_quiet; reflexivity).
    unfold try_except.
    erewrite bind_ok by (apply query_quiet; reflexivity).
    cbn [view]. rewrite Hupd, Hsel. cbn [ret].
    eexists. split; [reflexivity|]. reflexivity.
  - unfold delete_sale_item.
    erewrite bind_ok
      by (apply try_except_ok; apply query_quiet; exact Hs).
    erewrite bind_ok by (apply execute_quiet; exact Hs).
    erewrite bind_ok by (apply commit_quiet; reflexivity).
    rewrite Hsel. unfold try_except. cbn [ret view].
    eexists. split; [reflexivity|]. cbn [view]. exact Hdel.
Qed.

(** X17. Deleting a batch triggers no recompute and deletes no
    allocation row. A later successful recompute of a sale draws
    nothing from the deleted batch for that sale, while the rows of
    the lines of other sales stay, those drawn from the deleted batch
    included. *)
Theorem recalc_after_batch_deleted (batch_id sale_id : Z)
  (w w1 w2 : world) :
  delete_invoice_item batch_id w = (w1, Ok tt) ->
  recalc_fifo_for_sale sale_id w1 = (w2, Ok tt) ->
  sale_fifo (view w1) = sale_fifo (view w) /\
  (forall r, In r (sale_fifo (view w2)) ->
     In (sf_sale_item_id r) (map si_id (items_of_sale sale_id (view w2))) ->
     sf_batch_id r <> batch_id) /\
  (forall r, In r (sale_fifo (view w)) ->
     ~ In (sf_sale_item_id r) (map si_id (items_of_sale sale_id (view w))) ->
     In r (sale_fifo (view w2))).
Proof.
  intros Hdel Hrun. unfold delete_invoice_item in Hdel.
  apply bind_inv in Hdel.
  destruct Hdel as [(w0 & [] & Hx & Hc) | (e & _ & He)]; [|discriminate].
  apply execute_inv in Hx. destruct Hx as (_ & _ & _ & Hv0).
  apply commit_inv in Hc. destruct Hc as (Hv1 & _).
  rewrite Hv0 in Hv1.
  apply recalc_run in Hrun.
  destruct Hrun as ((_ & _ & _ & _ & Hsi) & _ & _ & Hdb & _).
  destruct (recalc_db_rows _ _ _ Hdb) as (sd & new & _ & Hn & Hall).
  assert (Hitems : forall d, sale_items d = sale_items (view w1) ->
                     items_of_sale sale_id d = items_of_sale sale_id (view w1))
    by (intros d Hd; unfold items_of_sale; now rewrite Hd).
  split; [now rewrite Hv1|]. split.
  - intros r Hr Hline. rewrite (Hitems _ Hsi) in Hline.
    rewrite Hn in Hr. apply in_app_or in Hr. destruct Hr as [Hr | Hr].
    + simpl in Hr. apply filter_In in Hr. destruct Hr as [_ Hr].
      apply negb_true_iff in Hr. apply in_ids_In in Hline. congruence.
    + rewrite Forall_forall in Hall.
      destruct (Hall r Hr) as (p & need & q & _ & Hb).
      destruct (select_batches_from_items p sd (view w1) _ _ _ Hb)
        as (ii & Hii & Hid & _).
      rewrite Hv1 in Hii. simpl in Hii. apply filter_In in Hii.
      destruct Hii as [_ Hii]. apply negb_true_iff, Z.eqb_neq in Hii.
      congruence.
  - intros r Hr Hline. rewrite Hn. apply in_or_app. left.
    simpl. apply filter_In. rewrite Hv1. simpl. split; [exact Hr|].
    apply negb_true_iff.
    destruct (in_ids (sf_sale_item_id r)
                (map si_id (items_of_sale sale_id
                              (delete_invoice_item_row batch_id (view w)))))
      eqn:E; [|reflexivity].
    apply in_ids_In in E. contradiction.
Qed.

(* ================================================================= *)
(** ** What an interrupted recompute keeps *)











Section Sound.

Variable ii0 : list invoice_item.
Variable si0 : list sale_item.
Hypothesis ii0_keys : NoDup (map ii_id ii0).
Hypothesis si0_quantities : forall L, In L si0 -> 0 <= si_qty L.









End Sound.



(* ================================================================= *)
(** ** The further theorems at work on the ledger *)

Lemma run_of {A} (m : M A) (w : world) (o : outcome A) :
  snd (m w) = o -> m w = (fst (m w), o).
Proof. destruct (m w) as [w' o']. simpl. now intros ->. Qed.





Lemma alloc_no_capacity_witness :
  first_available
    (select_batches 1 "2026-02-01" (view (recomputed 12)))
    (view (recomputed 12)) = None /\
  exists w',
    alloc_batches 1 5
      (select_batches 1 "2026-02-01" (view (recomputed 12)))
      (recomputed 12)
    = (w', Ok 5) /\
    view w' = view (recomputed 12).
Proof.
  assert (H0 : schedule (recomputed 12) = [])
    by (vm_compute; reflexivity).
  assert (H1 : first_available
                 (select_batches 1 "2026-02-01" (view (recomputed 12)))
                 (view (recomputed 12)) = None)
    by (vm_compute; reflexivity).
  exact (conj H1
           (alloc_no_capacity 1 5
              (select_batches 1 "2026-02-01" (view (recomputed 12)))
              (recomputed 12) H0 H1)).
Defined.

Lemma recalc_rows_cost_snapshot_witness :
  recalc_fifo_for_sale 1 (connect (ledger 8) []) = (recomputed 8, Ok tt) /\
  forall r, In r (sale_fifo (view (recomputed 8))) ->
    In (sf_sale_item_id r)
       (map si_id (items_of_sale 1 (view (recomputed 8)))) ->
    exists L B,
      In L (items_of_sale 1 (view (recomputed 8))) /\
      In B (invoice_items (view (recomputed 8))) /\
      si_id L = sf_sale_item_id r /\
      ii_id B = sf_batch_id r /\
      ii_product_id B = si_product_id L /\
      sf_cost_price r = ii_price B.
Proof.
  assert (H1 : recalc_fifo_for_sale 1 (connect (ledger 8) [])
               = (recomputed 8, Ok tt))
    by (apply recomputed_run; vm_compute; reflexivity).
  exact (conj H1
           (recalc_rows_cost_snapshot 1 (connect (ledger 8) [])
              (recomputed 8) H1)).
Defined.






Lemma add_sale_item_swallows_recompute_failure_witness :
  exists w',
    add_sale_item 1 1 2 10 (connect (ledger 8) [false; false; true])
    = (w', Ok tt) /\
    sale_items (view w')
    = sale_items (view (connect (ledger 8) [false; false; true])) ++
      [mkSaleItem
         (next_rowid
            (seq_sale_items
               (view (connect (ledger 8) [false; false; true])))
            (map si_id
               (sale_items
                  (view (connect (ledger 8) [false; false; true])))))
         1 1 2 10 (2 * 10)] /\
    sale_items (durable w') = sale_items (view w').
Proof.
  assert (H0 : clear_for 2 (connect (ledger 8) [false; false; true]))
    by reflexivity.
  exact (add_sale_item_swallows_recompute_failure 1 1 2 10
           (connect (ledger 8) [false; false; true]) H0).
Defined.

Lemma delete_sale_item_leaves_rows_witness :
  exists w',
    delete_sale_item 1 (connect (ledger 8) []) = (w', Ok tt) /\
    (forall it, In it (sale_items (view w')) -> si_id it <> 1) /\
    rows_of_item 1 (view w')
    = rows_of_item 1 (view (connect (ledger 8) [])).
Proof.
  exact (delete_sale_item_leaves_rows 1 (connect (ledger 8) []) eq_refl).
Defined.

Lemma delete_sale_removes_witness :
  exists w',
    delete_sale 1 (connect (ledger 8) []) = (w', Ok tt) /\
    durable w' = view w' /\
    select_sale_date 1 (view w') = None /\
    items_of_sale 1 (view w') = [] /\
    (forall x,
       In x (map si_id (items_of_sale 1 (view (connect (ledger 8) [])))) ->
       rows_of_item x (view w') = []) /\
    (forall x,
       ~ In x (map si_id
                 (items_of_sale 1 (view (connect (ledger 8) [])))) ->
       rows_of_item x (view w')
       = rows_of_item x (view (connect (ledger 8) []))) /\
    (forall s, In s (sales (view (connect (ledger 8) []))) ->
               s_id s <> 1 -> In s (sales (view w'))).
Proof.
  exact (delete_sale_removes 1 (connect (ledger 8) []) eq_refl).
Defined.


Lemma update_delete_absent_item_witness :
  (exists w',
     update_sale_item 9 3 10 (connect (ledger 8) []) = (w', Ok tt) /\
     view w' = view (connect (ledger 8) [])) /\
  (exists w',
     delete_sale_item 9 (connect (ledger 8) []) = (w', Ok tt) /\
     view w' = view (connect (ledger 8) [])).
Proof.
  assert (H0 : forall it,
             In it (sale_items (view (connect (ledger 8) []))) ->
             si_id it <> 9)
    by (intros it [<- | [<- | []]]; discriminate).
  exact (update_delete_absent_item 9 3 10 (connect (ledger 8) [])
           eq_refl H0).
Defined.

Lemma recalc_after_batch_deleted_witness :
  sale_fifo
    (view (fst (delete_invoice_item 2 (connect (ledger 8) []))))
  = sale_fifo (view (connect (ledger 8) [])) /\
  (forall r,
     In r (sale_fifo
             (view (fst (recalc_fifo_for_sale 1
                           (fst (delete_invoice_item 2
                                   (connect (ledger 8) []))))))) ->
     In (sf_sale_item_id r)
        (map si_id
           (items_of_sale 1
              (view (fst (recalc_fifo_for_sale 1
                            (fst (delete_invoice_item 2
                                    (connect (ledger 8) []))))))))  ->
     sf_batch_id r <> 2) /\
  (forall r, In r (sale_fifo (view (connect (ledger 8) []))) ->
     ~ In (sf_sale_item_id r)
          (map si_id (items_of_sale 1 (view (connect (ledger 8) [])))) ->
     In r (sale_fifo
             (view (fst (recalc_fifo_for_sale 1
                           (fst (delete_invoice_item 2
                                   (connect (ledger 8) [])))))))).
Proof.
  assert (H1 : delete_invoice_item 2 (connect (ledger 8) [])
               = (fst (delete_invoice_item 2 (connect (ledger 8) [])),
                  Ok tt))
    by (apply run_of; vm_compute; reflexivity).
  assert (H2 : recalc_fifo_for_sale 1
                 (fst (delete_invoice_item 2 (connect (ledger 8) [])))
               = (fst (recalc_fifo_for_sale 1
                         (fst (delete_invoice_item 2
                                 (connect (ledger 8) [])))),
                  Ok tt))
    by (apply run_of; vm_compute; reflexivity).
  exact (recalc_after_batch_deleted 2 1 (connect (ledger 8) []) _ _ H1 H2).
Defined.


